(** * Sentinel-Drift: the report reducers and the vault relay of sentinel.py

    A shallow embedding of [parse_ansible_json] (the Run-Report Reducer),
    [parse_audit_log] (the History Reducer), [setup_vault_password] and the
    parts of [main] around them.  Python strings are modelled as
    [String.string] holding the UTF-8 bytes of the text. *)

From Stdlib Require Import String Ascii ZArith List Bool.
From stdpp Require Import gmap strings.

Open Scope string_scope.

(** ** Python string methods used by sentinel.py *)
Module PyStr.

(** [sub in s] for strings: [sub] occurs at some position of [s]. *)
Fixpoint contains (sub s : string) : bool :=
  String.prefix sub s ||
  match s with
  | EmptyString => false
  | String _ s' => contains sub s'
  end.

(** [s[n:]] *)
Fixpoint drop (n : nat) (s : string) : string :=
  match n, s with
  | O, _ => s
  | S n', String _ s' => drop n' s'
  | S _, EmptyString => EmptyString
  end.

(** The text before and after the first occurrence of [sep] in [s]. *)
Fixpoint break_on (sep s : string) : option (string * string) :=
  if String.prefix sep s then Some (EmptyString, drop (String.length sep) s)
  else match s with
       | EmptyString => None
       | String c s' =>
           match break_on sep s' with
           | Some (a, b) => Some (String c a, b)
           | None => None
           end
       end.

(** [s.split(sep, n)] for a non-empty [sep]: at most [n] splits. *)
Fixpoint split_n (n : nat) (sep s : string) : list string :=
  match n with
  | O => [s]
  | S n' =>
      match break_on sep s with
      | Some (a, b) => a :: split_n n' sep b
      | None => [s]
      end
  end.

(** [s.split(sep)] for a non-empty [sep]: [s] has fewer than
    [length s + 1] occurrences of [sep], so that many splits are all. *)
Definition split (sep s : string) : list string :=
  split_n (S (String.length s)) sep s.

(** [s.replace(old, new)] for a non-empty [old] is [new.join(s.split(old))]. *)
Definition replace (old new s : string) : string :=
  String.concat new (split old s).

Fixpoint drop_while (p : ascii -> bool) (l : list ascii) : list ascii :=
  match l with
  | [] => []
  | c :: l' => if p c then drop_while p l' else l
  end.

(** [s.strip(chars)]: remove the characters satisfying [p] at both ends. *)
Definition strip_by (p : ascii -> bool) (s : string) : string :=
  string_of_list_ascii
    (rev (drop_while p (rev (drop_while p (list_ascii_of_string s))))).

(** The characters [str.isspace] accepts, in their UTF-8 encoding (a
    Python [str] is held here as the UTF-8 bytes of its text).  One byte:
    \t \n \x0b \x0c \r, \x1c-\x1f and the space. *)
Definition is_space1 (c : ascii) : bool :=
  let n := nat_of_ascii c in
  (((9 <=? n) && (n <=? 13)) || ((28 <=? n) && (n <=? 32)))%nat.

(** Two bytes: U+0085 (C2 85) and U+00A0 (C2 A0). *)
Definition is_space2 (b0 b1 : ascii) : bool :=
  let n0 := nat_of_ascii b0 in
  let n1 := nat_of_ascii b1 in
  ((n0 =? 194) && ((n1 =? 133) || (n1 =? 160)))%nat.

(** Three bytes: U+1680 (E1 9A 80), U+2000-U+200A (E2 80 80-8A), U+2028,
    U+2029 and U+202F (E2 80 A8, A9, AF), U+205F (E2 81 9F) and U+3000
    (E3 80 80). *)
Definition is_space3 (b0 b1 b2 : ascii) : bool :=
  let n0 := nat_of_ascii b0 in
  let n1 := nat_of_ascii b1 in
  let n2 := nat_of_ascii b2 in
  ((n0 =? 225) && (n1 =? 154) && (n2 =? 128) ||
   (n0 =? 226) && (n1 =? 128) &&
     (((128 <=? n2) && (n2 <=? 138)) || (n2 =? 168) || (n2 =? 169) || (n2 =? 175)) ||
   (n0 =? 226) && (n1 =? 129) && (n2 =? 159) ||
   (n0 =? 227) && (n1 =? 128) && (n2 =? 128))%nat.

(** Drop the whitespace characters at the start of a UTF-8 byte list.  The
    first byte of valid UTF-8 starts a character, so a match of one of the
    encodings above is that character. *)
Fixpoint lstrip_ws (l : list ascii) : list ascii :=
  match l with
  | [] => []
  | c :: l1 =>
      if is_space1 c then lstrip_ws l1 else
      match l1 with
      | [] => l
      | b1 :: l2 =>
          if is_space2 c b1 then lstrip_ws l2 else
          match l2 with
          | [] => l
          | b2 :: l3 => if is_space3 c b1 b2 then lstrip_ws l3 else l
          end
      end
  end.

(** The same at the end, on the reversed byte list: the lead bytes C2, E1,
    E2 and E3 fix where the last character starts. *)
Fixpoint rstrip_rev_ws (l : list ascii) : list ascii :=
  match l with
  | [] => []
  | c :: l1 =>
      if is_space1 c then rstrip_rev_ws l1 else
      match l1 with
      | [] => l
      | b1 :: l2 =>
          if is_space2 b1 c then rstrip_rev_ws l2 else
          match l2 with
          | [] => l
          | b2 :: l3 => if is_space3 b2 b1 c then rstrip_rev_ws l3 else l
          end
      end
  end.

(** [s.strip()] *)
Definition strip (s : string) : string :=
  string_of_list_ascii (rev (rstrip_rev_ws (rev (lstrip_ws (list_ascii_of_string s))))).

(** [s.strip(chars)] with an explicit character set. *)
Definition strip_chars (chars s : string) : string :=
  strip_by (fun c => existsb (Ascii.eqb c) (list_ascii_of_string chars)) s.

(** [x in xs] for a list of strings. *)
Definition mem (x : string) (xs : list string) : bool :=
  existsb (String.eqb x) xs.

End PyStr.

(** ** The Run-Report Reducer: [parse_ansible_json] *)
Module RunReport.

(** The decoded JSON payload, restricted to the fields the reducer reads
    (shape of the Ansible json callback).  Each [option] is a [.get] with
    a default: [None] is an absent key. *)
Record host_result := {
  r_skipped : option bool;   (* result.get('skipped', False) *)
  r_msg : option string      (* result.get('msg', '') *)
}.

Record task := {
  task_name : option string;                          (* task.get('task', {}).get('name', '') *)
  task_hosts : option (list (string * host_result))   (* task.get('hosts', {}).items() *)
}.

Record play := { play_tasks : option (list task) }.  (* play.get('tasks', []) *)

Record stat := {
  stat_unreachable : option Z;   (* stat.get('unreachable', 0) *)
  stat_failures : option Z       (* stat.get('failures', 0) *)
}.

Record payload := {
  data_stats : option (list (string * stat));   (* data.get('stats', {}).items() *)
  data_plays : option (list play)               (* data.get('plays', []) *)
}.

Definition DRIFT_TASKS : list string :=
  ["Display Diff"; "Display Metadata Drift"; "Display Missing File Warning";
   "Display Vault Error"].

Definition FIX_TASKS : list string := ["Display Fix Applied"].

(** Exceptions that escape the reducer. *)
Inductive exn := KeyError (key : string).

(** The lines the reducer and the quiet branch of [main] print; each
    constructor is one [print] call, with the values it interpolates. *)
Inductive out :=
| OParseFail                  (* "❌ Failed to parse Ansible JSON output." *)
| OHeader                     (* "=== 🛡️  Sentinel-Drift Report ===" *)
| OUnreachable (host : string)  (* "❌ {host}: UNREACHABLE" *)
| OFailed (host : string)       (* "❌ {host}: FAILED" *)
| OCompliant (host : string)    (* "✅ {host}: OK (Compliant)" *)
| OFixedHdr (host : string)     (* "🔧 {host}: FIXED" *)
| OFixMsg (msg : string)        (* "    {msg}" *)
| ODriftHdr (host : string)     (* "⚠️  {host}: DRIFT DETECTED" *)
| ODriftMsg (msg : string)      (* msg with each line indented by four spaces *)
| OBlank                        (* "" *)
| OExecFailed                   (* "❌ Ansible execution failed:" *)
| ORaw (text : string).         (* print(result.stderr) / print(result.stdout) *)

(** A small error monad for the [KeyError] of [host_drifts[host]]. *)
Definition res (A : Type) := (exn + A)%type.
Definition ret {A} (a : A) : res A := inr a.
Definition bind {A B} (m : res A) (k : A -> res B) : res B :=
  match m with inl e => inl e | inr a => k a end.
Notation "'let!' x := m 'in' k" := (bind m (fun x => k)) (at level 200, x name, m at level 100, k at level 200).


Abbreviation msgmap := (gmap string (list string)).

(** [{host: [] for host in stats.keys()}] *)
Definition init_lists (stats : list (string * stat)) : msgmap :=
  list_to_map (map (fun hs => (fst hs, [])) stats).

(** [m[host].append(msg)]: a [KeyError] when [host] is not a key. *)
Definition append_msg (m : msgmap) (host msg : string) : res msgmap :=
  match m !! host with
  | Some l => ret (<[host := (l ++ [msg])%list]> m)
  | None => inl (KeyError host)
  end.

Definition skipped_of (r : host_result) : bool := default false (r_skipped r).
Definition msg_of (r : host_result) : string := default "" (r_msg r).

(** [for host, result in task.get('hosts', {}).items(): if not skipped: append] *)
Fixpoint collect (hs : list (string * host_result)) (m : msgmap) : res msgmap :=
  match hs with
  | [] => ret m
  | (host, r) :: hs' =>
      if skipped_of r then collect hs' m
      else let! m' := append_msg m host (msg_of r) in collect hs' m'
  end.

Definition scan_task (dm : msgmap * msgmap) (t : task) : res (msgmap * msgmap) :=
  let '(drifts, fixes) := dm in
  let name := default "" (task_name t) in
  let hosts := default [] (task_hosts t) in
  if PyStr.mem name DRIFT_TASKS then
    let! drifts' := collect hosts drifts in ret (drifts', fixes)
  else if PyStr.mem name FIX_TASKS then
    let! fixes' := collect hosts fixes in ret (drifts, fixes')
  else ret dm.

Fixpoint scan_tasks (ts : list task) (dm : msgmap * msgmap) : res (msgmap * msgmap) :=
  match ts with
  | [] => ret dm
  | t :: ts' => let! dm' := scan_task dm t in scan_tasks ts' dm'
  end.

Fixpoint scan_plays (ps : list play) (dm : msgmap * msgmap) : res (msgmap * msgmap) :=
  match ps with
  | [] => ret dm
  | p :: ps' => let! dm' := scan_tasks (default [] (play_tasks p)) dm in scan_plays ps' dm'
  end.

(** [fixed_files]: for each fix message holding ["FIXED: "], the stripped
    second piece of its split on that marker. *)
Fixpoint fixed_files (fixes : list string) : list string :=
  match fixes with
  | [] => []
  | fmsg :: fixes' =>
      if PyStr.contains "FIXED: " fmsg
      then PyStr.strip (nth 1 (PyStr.split "FIXED: " fmsg) "") :: fixed_files fixes'
      else fixed_files fixes'
  end.

(** [is_fixed]: some fixed file occurs in the drift message. *)
Definition is_fixed (ffiles : list string) (dmsg : string) : bool :=
  existsb (fun ffile => PyStr.contains ffile dmsg) ffiles.

Definition remaining_drifts (ffiles drifts : list string) : list string :=
  List.filter (fun dmsg => negb (is_fixed ffiles dmsg)) drifts.

(** The body of [for host, stat in stats.items()]. *)
Definition report_host (host : string) (st : stat) (drifts fixes : list string) : list out :=
  if (0 <? default 0 (stat_unreachable st))%Z then [OUnreachable host]
  else if (0 <? default 0 (stat_failures st))%Z then [OFailed host]
  else match drifts, fixes with
  | [], [] => [OCompliant host]
  | _, _ =>
      let shown_fixes :=
        match fixes with
        | [] => []
        | _ => OFixedHdr host :: map OFixMsg fixes
        end in
      let remaining := remaining_drifts (fixed_files fixes) drifts in
      (shown_fixes ++
      match remaining, fixes with
      | _ :: _, _ => ODriftHdr host :: (map ODriftMsg remaining ++ [OBlank])%list
      | [], _ :: _ => [OBlank]
      | [], [] => []
      end)%list
  end.

(** The summary lines of one [stats] entry, with the lists the scan built. *)
Definition host_block (host_drifts host_fixes : msgmap) (hs : string * stat) : list out :=
  report_host (fst hs) (snd hs)
    (default [] (host_drifts !! fst hs)) (default [] (host_fixes !! fst hs)).

Section Reducer.

(** [json.loads]: [None] is a [JSONDecodeError]. *)
Variable json_loads : string -> option payload.

Definition parse_ansible_json (json_output : string) : list out * option exn :=
  match json_loads json_output with
  | None => ([OParseFail], None)
  | Some data =>
      let stats := default [] (data_stats data) in
      let plays := default [] (data_plays data) in
      match scan_plays plays (init_lists stats, init_lists stats) with
      | inl e => ([OHeader], Some e)
      | inr (host_drifts, host_fixes) =>
          (OHeader :: flat_map (host_block host_drifts host_fixes) stats, None)
      end
  end.

(** How the quiet branch of [main] ends. *)
Inductive outcome := Returned | Raised (e : exn) | Exited (code : Z).

(** The quiet branch of [main] after the subprocess returned. *)
Definition quiet_report (returncode : Z) (stdout stderr : string) : list out * outcome :=
  if negb (returncode =? 0)%Z && negb (String.prefix "{" (PyStr.strip stdout)) then
    ([OExecFailed; ORaw stderr; ORaw stdout], Exited returncode)
  else
    match parse_ansible_json stdout with
    | (o, Some e) => (o, Raised e)
    | (o, None) => (o, if (returncode =? 0)%Z then Returned else Exited returncode)
    end.

End Reducer.

(** Predicates used to state the scan's behaviour. *)

(** A task whose results the scan appends to a message list. *)
Definition relevant (t : task) : bool :=
  PyStr.mem (default "" (task_name t)) DRIFT_TASKS || PyStr.mem (default "" (task_name t)) FIX_TASKS.

(** Two message maps have the same keys. *)
Definition same_keys (m1 m2 : msgmap) : Prop :=
  forall h, m1 !! h = None <-> m2 !! h = None.

(** A task with a non-skipped result for a host that is not a key of [m0]. *)
Definition offending (m0 : msgmap) (t : task) : Prop :=
  relevant t = true /\
  exists h r, In (h, r) (default [] (task_hosts t)) /\ skipped_of r = false /\ m0 !! h = None.

End RunReport.

(** ** The History Reducer: [parse_audit_log] *)
Module History.

(** A naive [datetime]; [datetime.now()] carries microseconds, a parsed log
    time has none. *)
Record datetime := {
  year : Z; month : Z; day : Z; hour : Z; minute : Z; second : Z; microsecond : Z
}.

Definition dt_fields (d : datetime) : list Z :=
  [year d; month d; day d; hour d; minute d; second d; microsecond d].

Fixpoint lex_lt (a b : list Z) : bool :=
  match a, b with
  | x :: a', y :: b' => (x <? y)%Z || ((x =? y)%Z && lex_lt a' b')
  | _, _ => false
  end.

(** [log_time < start_time] *)
Definition dt_lt (a b : datetime) : bool := lex_lt (dt_fields a) (dt_fields b).

(** The values of [host_report[host]['status']]. *)
Inductive hstatus := SOK | SDRIFT | SFIXED.

Record entry := { status : hstatus; messages : list string }.

(** [host_report]: a dict, kept in insertion order. *)
Abbreviation report := (list (string * entry)).

Fixpoint find_entry (host : string) (hr : report) : option entry :=
  match hr with
  | [] => None
  | (h, e) :: hr' => if String.eqb h host then Some e else find_entry host hr'
  end.

(** [host_report[host] = f(host_report[host])] for a key already present. *)
Definition update_entry (host : string) (f : entry -> entry) (hr : report) : report :=
  map (fun he => if String.eqb (fst he) host then (fst he, f (snd he)) else he) hr.

Definition nl : string := String (ascii_of_nat 10) EmptyString.

Definition vault_note : string :=
  nl ++ "    ⚠️  VAULT ERROR: Source file is encrypted but password was missing.".

(** The [for part in detail_parts] loop: later parts override earlier ones. *)
Fixpoint parse_parts (parts : list string) (acc : string * string * string)
  : string * string * string :=
  match parts with
  | [] => acc
  | p :: parts' =>
      let part := PyStr.strip p in
      let '(host, file_path, drift_type) := acc in
      let acc' :=
        if String.prefix "Host: " part then (PyStr.replace "Host: " "" part, file_path, drift_type)
        else if String.prefix "File: " part then (host, PyStr.replace "File: " "" part, drift_type)
        else if String.prefix "Type: " part then (host, file_path, PyStr.replace "Type: " "" part)
        else acc in
      parse_parts parts' acc'
  end.

Definition parse_details (details : string) : string * string * string :=
  parse_parts (PyStr.split " | " details) ("Unknown", "Unknown", "Unknown").

(** The update of [host_report] for one record. *)
Definition apply_record (status_str host file_path drift_type : string) (hr : report) : report :=
  let hr := match find_entry host hr with
            | Some _ => hr
            | None => (hr ++ [(host, {| status := SOK; messages := [] |})])%list
            end in
  if String.eqb status_str "DRIFT" then
    let msg := "File: " ++ file_path ++ " (Type: " ++ drift_type ++ ")" in
    let msg := if String.eqb drift_type "vault_error" then msg ++ vault_note else msg in
    update_entry host (fun e => {| status := SDRIFT; messages := (messages e ++ [msg])%list |}) hr
  else if String.eqb status_str "FIXED" then
    update_entry host (fun e => {| status := SFIXED;
      messages := (messages e ++ [("File: " ++ file_path ++ " (FIXED)")%string])%list |}) hr
  else hr.

(** What the log prints. *)
Inductive hout :=
| HHeader                  (* "=== 🛡️  Sentinel-Drift Report (Summary) ===" *)
| HError                   (* "Error parsing log for summary: {e}" *)
| HOk (host : string)      (* "✅ {host}: OK (Compliant)" *)
| HFixed (host : string)   (* "✅ {host}: DRIFT FIXED" *)
| HFixedMsg (msg : string) (* "    {msg}" in cyan *)
| HDrift (host : string)   (* "⚠️  {host}: DRIFT DETECTED" *)
| HDriftMsg (msg : string) (* "    {msg}" in yellow *)
| HBlank.                  (* "" *)

(** The audit log as the reducer finds it: absent, unreadable (an exception
    while opening or reading it), or read as a list of lines. *)
Inductive log_source := NoLogFile | LogUnreadable | LogLines (lines : list string).

Definition render_host (he : string * entry) : list hout :=
  let '(host, e) := he in
  match status e with
  | SOK => [HOk host; HBlank]
  | SFIXED => (HFixed host :: map HFixedMsg (messages e) ++ [HBlank])%list
  | SDRIFT => (HDrift host :: map HDriftMsg (messages e) ++ [HBlank])%list
  end.

Section Reducer.

(** [datetime.strptime(ts_str, "%Y-%m-%d %H:%M:%S")]: [None] is a [ValueError]. *)
Variable strptime : string -> option datetime.
Variable start_time : datetime.

(** The timestamp of a line that passed the ["["] test. *)
Definition line_time (line : string) : option datetime :=
  strptime (PyStr.strip_chars "[" (hd "" (PyStr.split "]" line))).

(** One iteration of [for line in f]. *)
Definition process_line (hr : report) (raw : string) : report :=
  let line := PyStr.strip raw in
  if negb (String.prefix "[" line) then hr else
  match line_time line with
  | None => hr
  | Some log_time =>
      if dt_lt log_time start_time then hr else
      match PyStr.split_n 2 "] " line with
      | _ :: status_part :: rest =>
          let status_str := PyStr.strip_chars "[]" status_part in
          let details := match rest with d :: _ => d | [] => "" end in
          let '(host, file_path, drift_type) := parse_details details in
          apply_record status_str host file_path drift_type hr
      | _ => hr
      end
  end.

Definition reduce_lines (lines : list string) : report :=
  fold_left process_line lines [].

(** A line the reducer reads as a record: it starts with ["["] once
    stripped and its timestamp parses. *)
Definition is_record (raw : string) : bool :=
  String.prefix "[" (PyStr.strip raw) && match line_time (PyStr.strip raw) with Some _ => true | None => false end.

(** A record whose timestamp is earlier than [start_time]. *)
Definition before_cutoff (raw : string) : bool :=
  String.prefix "[" (PyStr.strip raw) &&
  match line_time (PyStr.strip raw) with
  | Some t => dt_lt t start_time
  | None => false
  end.

Definition parse_audit_log (src : log_source) : list hout :=
  match src with
  | NoLogFile => []
  | LogUnreadable => [HHeader; HError]
  | LogLines lines => HHeader :: flat_map render_host (reduce_lines lines)
  end.

End Reducer.

(** A [strptime] for the fixed format with exactly two digits per field
    (four for the year), as the log writer produces them, and days 1-28
    only: narrower than Python's, it is used only to run the reducer on the
    concrete logs below, whose dates it parses as Python does. *)
Definition digit (c : ascii) : option Z :=
  let n := nat_of_ascii c in
  if ((48 <=? n) && (n <=? 57))%nat then Some (Z.of_nat (n - 48)) else None.

Fixpoint digits (l : list ascii) (acc : Z) : option Z :=
  match l with
  | [] => Some acc
  | c :: l' => match digit c with Some d => digits l' (acc * 10 + d)%Z | None => None end
  end.

Definition strptime_fixed (s : string) : option datetime :=
  match list_ascii_of_string s with
  | [y1; y2; y3; y4; "-"; m1; m2; "-"; d1; d2; " "; h1; h2; ":"; i1; i2; ":"; s1; s2]%char =>
      match digits [y1; y2; y3; y4] 0, digits [m1; m2] 0, digits [d1; d2] 0,
            digits [h1; h2] 0, digits [i1; i2] 0, digits [s1; s2] 0 with
      | Some y, Some mo, Some d, Some h, Some mi, Some se =>
          if ((1 <=? mo) && (mo <=? 12) && (1 <=? d) && (d <=? 28) && (h <=? 23)
              && (mi <=? 59) && (se <=? 59))%Z
          then Some {| year := y; month := mo; day := d; hour := h; minute := mi;
                       second := se; microsecond := 0 |}
          else None
      | _, _, _, _, _, _ => None
      end
  | _ => None
  end.

End History.

(** ** The vault relay: [setup_vault_password] and the environment of [main] *)
Module Vault.

(** The side effects of [setup_vault_password], in order. *)
Inductive effect :=
| EPrompt                              (* getpass.getpass("Vault password: ") *)
| ECreateTemp (path : string)          (* tempfile.mkstemp(suffix='.sh') *)
| EWrite (path content : string)       (* f.write(content) *)
| EChmod (path : string) (mode : Z)    (* os.chmod(path, mode) *)
| ERegisterCleanup (path : string).    (* atexit.register(cleanup_vault_file) *)

Definition nl : string := String (ascii_of_nat 10) EmptyString.
Definition dquote : string := String (ascii_of_nat 34) EmptyString.

(** The two [f.write] arguments. *)
Definition script_line1 : string := "#!/bin/sh" ++ nl.
Definition script_line2 : string :=
  "echo " ++ dquote ++ "$SENTINEL_VAULT_PASS" ++ dquote ++ nl.

(** [setup_vault_password vault_pass_arg cmd_list]; [prompt_input] is what
    [getpass] returns and [tmp_path] the name [mkstemp] picks.  Returns the
    effects, the extended [cmd_list] and the returned password. *)
Definition setup_vault_password (vault_pass_arg : option string) (prompt_input tmp_path : string)
    (cmd_list : list string) : list effect * list string * option string :=
  match vault_pass_arg with
  | None | Some EmptyString => ([], cmd_list, None)
  | Some arg =>
      let '(pre, value) :=
        if String.eqb arg "__PROMPT__" then ([EPrompt], prompt_input) else ([], arg) in
      ((pre ++ [ECreateTemp tmp_path; EWrite tmp_path script_line1;
                EWrite tmp_path script_line2; EChmod tmp_path 448%Z;
                ERegisterCleanup tmp_path])%list,
       (cmd_list ++ ["--vault-password-file"; tmp_path])%list,
       Some value)
  end.

(** [env = os.environ.copy(); if vault_password_value: env['SENTINEL_VAULT_PASS'] = ...] *)
Definition run_env (environ : gmap string string) (vault_password_value : option string)
  : gmap string string :=
  match vault_password_value with
  | None | Some EmptyString => environ
  | Some v => <["SENTINEL_VAULT_PASS" := v]> environ
  end.

(** Everything written into files. *)
Definition file_writes (effs : list effect) : list (string * string) :=
  flat_map (fun e => match e with EWrite p c => [(p, c)] | _ => [] end) effs.

End Vault.

(** ** Concrete inputs *)
Module Samples.
Import RunReport.

(** [json.loads] on the JSON text of [p]. *)
Definition loads_const (p : payload) : string -> option payload := fun _ => Some p.

(** [json.loads] on text that is not JSON: a [JSONDecodeError]. *)
Definition loads_reject : string -> option payload := fun _ => None.

Definition ok_stat : stat := {| stat_unreachable := Some 0%Z; stat_failures := Some 0%Z |}.
Definition unreachable_stat : stat := {| stat_unreachable := Some 1%Z; stat_failures := Some 0%Z |}.

Definition shown (msg : string) : host_result := {| r_skipped := Some false; r_msg := Some msg |}.

Definition one_play (ts : list task) : list play := [{| play_tasks := Some ts |}].

Definition drift_task (hs : list (string * host_result)) : task :=
  {| task_name := Some "Display Diff"; task_hosts := Some hs |}.
Definition fix_task (hs : list (string * host_result)) : task :=
  {| task_name := Some "Display Fix Applied"; task_hosts := Some hs |}.

(** web1 unreachable; a drift result for web2, which [stats] does not list. *)
Definition payload_missing_host : payload :=
  {| data_stats := Some [("web1", unreachable_stat)];
     data_plays := Some (one_play [drift_task [("web2", shown "Drift detected in /etc/app.conf")]]) |}.

(** web1 fixed /etc/app.conf; the same fix task has a result for web2,
    which [stats] does not list. *)
Definition payload_fix_missing_host : payload :=
  {| data_stats := Some [("web1", ok_stat)];
     data_plays := Some (one_play [fix_task [("web1", shown "✅ FIXED: /etc/app.conf");
                                             ("web2", shown "✅ FIXED: /etc/app.conf")]]) |}.

(** One drift message on /etc/app.conf and the fix of that file. *)
Definition payload_app : payload :=
  {| data_stats := Some [("web1", ok_stat)];
     data_plays := Some (one_play [drift_task [("web1", shown "Drift detected in /etc/app.conf")];
                                   fix_task [("web1", shown "✅ FIXED: /etc/app.conf")]]) |}.

(** A drift message on /etc/other.conf and the fix of /etc/app.conf. *)
Definition payload_other : payload :=
  {| data_stats := Some [("web1", ok_stat)];
     data_plays := Some (one_play [drift_task [("web1", shown "Drift detected in /etc/other.conf")];
                                   fix_task [("web1", shown "✅ FIXED: /etc/app.conf")]]) |}.

(** A fix message with the marker twice. *)
Definition two_marker_fix : string := "✅ FIXED: /etc/app.conf FIXED: /etc/db.conf".

Definition payload_two_markers : payload :=
  {| data_stats := Some [("web1", ok_stat)];
     data_plays := Some (one_play [drift_task [("web1", shown "Drift detected in /etc/app.conf")];
                                   fix_task [("web1", shown two_marker_fix)]]) |}.

(** The start of a run: 2024-01-01 00:00:00. *)
Definition t0 : History.datetime :=
  {| History.year := 2024; History.month := 1; History.day := 1; History.hour := 0;
     History.minute := 0; History.second := 0; History.microsecond := 0 |}%Z.

Definition ok_line : string := "[2024-01-01 10:00:00] [OK] Host: web1 | File: /etc/app.conf | Type: none".
Definition drift_line : string :=
  "[2024-01-01 10:00:01] [DRIFT] Host: web1 | File: /etc/app.conf | Type: content".
Definition ok_line2 : string := "[2024-01-01 10:00:02] [OK] Host: web1 | File: /etc/app.conf | Type: none".
Definition fixed_line : string := "[2024-01-01 10:00:03] [FIXED] Host: web1 | File: /etc/app.conf".
Definition drift_line2 : string :=
  "[2024-01-01 10:00:04] [DRIFT] Host: web1 | File: /etc/app.conf | Type: content".

(** A record indented by two spaces. *)
Definition indented_line : string :=
  "  [2024-01-01 10:00:00] [DRIFT] Host: web1 | File: /etc/app.conf | Type: content".

End Samples.

(** ** The lists the scan is meant to build *)
Module ScanSpec.
Import RunReport.
Local Open Scope list_scope.

(** The non-skipped messages of [host] in one task's [hosts] mapping, in order. *)
Definition host_msgs (host : string) (hs : list (string * host_result)) : list string :=
  flat_map (fun hr => if String.eqb (fst hr) host && negb (skipped_of (snd hr))
                      then [msg_of (snd hr)] else []) hs.

Definition is_drift_task (t : task) : bool := PyStr.mem (default "" (task_name t)) DRIFT_TASKS.
Definition is_fix_task (t : task) : bool :=
  negb (is_drift_task t) && PyStr.mem (default "" (task_name t)) FIX_TASKS.

(** The messages of [host] over the tasks selected by [sel], in document order. *)
Definition play_msgs (sel : task -> bool) (host : string) (ps : list play) : list string :=
  flat_map (fun p => flat_map (fun t => if sel t then host_msgs host (default [] (task_hosts t)) else [])
                      (default [] (play_tasks p))) ps.

End ScanSpec.

(** ** The rest of [main] and [perform_safety_checks] *)
Module Main.
Import RunReport.
Local Open Scope list_scope.

Definition PLAYBOOK_FILE : string := "sentinel_drift.yml".

(** The parsed command line.  [auto_fix], [report] and [vault_pass] use
    [nargs='?'] with a [const]: [None] when absent, the [const] or the given
    text otherwise. *)
Record args := {
  check : bool;
  ask_fix : bool;
  auto_fix : option string;
  report : option string;
  inventory : string;
  vault_pass : option string;
  verbose : bool
}.

(** Python truthiness of an optional string. *)
Definition truthy (o : option string) : bool :=
  match o with Some (String _ _) => true | _ => false end.

(** [args.x != 'yes'] *)
Definition not_yes (o : option string) : bool :=
  match o with Some v => negb (String.eqb v "yes") | None => true end.

(** What [perform_safety_checks] prints or asks. *)
Inductive sout :=
| SDanger | SOverwriteNotice | SAskConfirm
| SLeakWarning | SLeakDiffs | SLeakPlainText | SAskRisk
| SAborted.

(** How [perform_safety_checks] ends: it returns (with the answers not yet
    read), calls [sys.exit(1)], or [input()] raises [EOFError]. *)
Inductive sresult := Proceed (rest : list string) | Abort (code : Z) | RaiseEOF.

(** [response = input(prompt); if response.strip() != 'yes': abort] *)
Definition confirm (ask : sout) (answers : list string) : list sout * sresult :=
  match answers with
  | [] => ([ask], RaiseEOF)
  | r :: rest =>
      if String.eqb (PyStr.strip r) "yes" then ([ask], Proceed rest)
      else ([ask; SAborted], Abort 1%Z)
  end.

Definition perform_safety_checks (a : args) (answers : list string) : list sout * sresult :=
  let '(o1, r1) :=
    if truthy (auto_fix a) then
      if not_yes (auto_fix a) then
        let '(o, r) := confirm SAskConfirm answers in (SDanger :: SOverwriteNotice :: o, r)
      else ([SDanger], Proceed answers)
    else ([], Proceed answers) in
  match r1 with
  | Proceed answers1 =>
      if truthy (report a) && truthy (vault_pass a) then
        if not_yes (report a) then
          let '(o, r) := confirm SAskRisk answers1 in
          (o1 ++ [SLeakWarning; SLeakDiffs; SLeakPlainText] ++ o, r)
        else (o1 ++ [SLeakWarning; SLeakDiffs; SLeakPlainText], Proceed answers1)
      else (o1, Proceed answers1)
  | _ => (o1, r1)
  end.

(** The number of confirmations the checks ask for. *)
Definition prompts_needed (a : args) : nat :=
  (if truthy (auto_fix a) && not_yes (auto_fix a) then 1 else 0) +
  (if truthy (report a) && truthy (vault_pass a) && not_yes (report a) then 1 else 0).

(** [extra_vars] *)
Definition extra_vars (a : args) : list string :=
  (if truthy (auto_fix a) then ["auto_fix=true"]
   else if ask_fix a then ["ask_fix=true"] else []) ++
  (if truthy (report a) then ["generate_report=true"] else []).

(** [cmd] before the vault password option. *)
Definition build_cmd (a : args) : list string :=
  ["ansible-playbook"; PLAYBOOK_FILE; "-i"; inventory a] ++
  match extra_vars a with
  | [] => []
  | ev => ["-e"; String.concat " " ev]
  end.

(** [is_interactive or args.verbose] *)
Definition interactive_mode (a : args) : bool := ask_fix a || verbose a.

(** The environment the playbook runs with. *)
Definition exec_env (environ : gmap string string) (a : args) (vault_password_value : option string)
  : gmap string string :=
  let env := Vault.run_env environ vault_password_value in
  if interactive_mode a then
    if negb (verbose a) then
      <["ANSIBLE_RETRY_FILES_ENABLED" := "0"]>
      (<["ANSIBLE_STDOUT_CALLBACK" := "yaml"]>
      (<["ANSIBLE_DISPLAY_OK_HOSTS" := "no"]>
      (<["ANSIBLE_DISPLAY_SKIPPED_HOSTS" := "no"]> env)))
    else env
  else <["ANSIBLE_LOAD_CALLBACK_PLUGINS" := "1"]> (<["ANSIBLE_STDOUT_CALLBACK" := "json"]> env).

(** What [subprocess.run] gives back: a return code (and the captured
    output in quiet mode), or a [KeyboardInterrupt] during the call. *)
Inductive proc_result := Completed (returncode : Z) (stdout stderr : string) | Interrupted.

(** How [main] ends. *)
Inductive main_outcome := Done | ExitWith (code : Z) | Uncaught (exc : string).

Inductive mline :=
| MAnsibleFailedRc (rc : Z)   (* "❌ Ansible execution failed with return code {rc}" *)
| MInterrupted                (* "🛑 Execution interrupted by user." *)
| MHistory (l : History.hout)
| MReport (o : out).

(** The interactive branch after the playbook ran: [check=True] turns a
    non-zero code into [CalledProcessError]; a [KeyboardInterrupt] is not
    caught there. *)
Definition run_interactive (strptime : string -> option History.datetime)
    (start_time : History.datetime) (res : proc_result) (log : History.log_source)
  : list mline * main_outcome :=
  match res with
  | Interrupted => ([], Uncaught "KeyboardInterrupt")
  | Completed rc _ _ =>
      let summary := map MHistory (History.parse_audit_log strptime start_time log) in
      if (rc =? 0)%Z then (summary, Done)
      else (MAnsibleFailedRc rc :: summary, ExitWith rc)
  end.

(** The quiet branch after the playbook ran. *)
Definition run_quiet (json_loads : string -> option payload) (res : proc_result)
  : list mline * main_outcome :=
  match res with
  | Interrupted => ([MInterrupted], ExitWith 130%Z)
  | Completed rc stdout stderr =>
      let '(o, oc) := quiet_report json_loads rc stdout stderr in
      (map MReport o,
       match oc with
       | Returned => Done
       | Exited c => ExitWith c
       | Raised _ => Uncaught "KeyError"
       end)
  end.

(** The files that exist, and the [atexit] callbacks registered so far
    (each one is [cleanup_vault_file] for a path). *)
Record world := { files : gset string; cleanups : list string }.

(** [cleanup_vault_file]: [if vault_pass_file and os.path.exists(...): os.remove(...)] *)
Definition cleanup_vault_file (vault_pass_file : string) (fs : gset string) : gset string :=
  if negb (String.eqb vault_pass_file "") && bool_decide (vault_pass_file ∈ fs)
  then fs ∖ {[vault_pass_file]} else fs.

Definition apply_effect (w : world) (e : Vault.effect) : world :=
  match e with
  | Vault.ECreateTemp p => {| files := files w ∪ {[p]}; cleanups := cleanups w |}
  | Vault.ERegisterCleanup p => {| files := files w; cleanups := cleanups w ++ [p] |}
  | _ => w
  end.

(** Interpreter exit: the [atexit] callbacks run last registered first. *)
Definition at_exit (w : world) : gset string :=
  fold_right cleanup_vault_file (files w) (cleanups w).

End Main.

(** ** Facts about the Run-Report Reducer *)
Module RunReportFacts.
Import RunReport Samples.
Local Open Scope list_scope.

Section Blocks.

Lemma report_host_unreachable host st d f :
  (0 < default 0 (stat_unreachable st))%Z -> report_host host st d f = [OUnreachable host].
Proof. intros H. unfold report_host. apply Z.ltb_lt in H. now rewrite H. Qed.

Lemma report_host_failed host st d f :
  (default 0 (stat_unreachable st) <= 0)%Z -> (0 < default 0 (stat_failures st))%Z ->
  report_host host st d f = [OFailed host].
Proof.
  intros Hu Hf. unfold report_host.
  apply Z.ltb_ge in Hu. apply Z.ltb_lt in Hf. now rewrite Hu, Hf.
Qed.

Lemma report_host_fixes host st d f :
  (default 0 (stat_unreachable st) <= 0)%Z -> (default 0 (stat_failures st) <= 0)%Z ->
  f <> [] ->
  report_host host st d f =
    let r := remaining_drifts (fixed_files f) d in
    (OFixedHdr host :: map OFixMsg f) ++
    match r with
    | [] => [OBlank]
    | _ => ODriftHdr host :: (map ODriftMsg r ++ [OBlank])
    end.
Proof.
  intros Hu Hf Hne. unfold report_host.
  apply Z.ltb_ge in Hu. apply Z.ltb_ge in Hf. rewrite Hu, Hf.
  destruct f as [|x f]; [congruence|].
  destruct d; destruct (remaining_drifts _ _); reflexivity.
Qed.

Lemma remaining_drifts_nil d : remaining_drifts [] d = d.
Proof. unfold remaining_drifts, is_fixed. induction d as [|x d IH]; [reflexivity | simpl; f_equal; exact IH]. Qed.

Lemma report_host_no_fixes host st d :
  (default 0 (stat_unreachable st) <= 0)%Z -> (default 0 (stat_failures st) <= 0)%Z ->
  report_host host st d [] =
    match d with
    | [] => [OCompliant host]
    | _ => ODriftHdr host :: (map ODriftMsg d ++ [OBlank])
    end.
Proof.
  intros Hu Hf. unfold report_host.
  apply Z.ltb_ge in Hu. apply Z.ltb_ge in Hf. rewrite Hu, Hf.
  destruct d as [|x d]; [reflexivity|].
  change (fixed_files []) with (@nil string).
  rewrite (remaining_drifts_nil (x :: d)). reflexivity.
Qed.

Lemma in_remaining_drifts ffiles d x :
  In x (remaining_drifts ffiles d) <->
  In x d /\ ~ exists ffile, In ffile ffiles /\ PyStr.contains ffile x = true.
Proof.
  unfold remaining_drifts, is_fixed. rewrite filter_In, negb_true_iff.
  split.
  - intros [Hin Hf]. split; [exact Hin|]. intros Hex.
    apply existsb_exists in Hex. congruence.
  - intros [Hin Hn]. split; [exact Hin|].
    destruct (existsb _ ffiles) eqn:E; [|reflexivity].
    exfalso. apply Hn. now apply existsb_exists.
Qed.

Lemma in_drift_msgs host r x :
  In (ODriftMsg x) (ODriftHdr host :: (map ODriftMsg r ++ [OBlank])) <-> In x r.
Proof.
  simpl. rewrite in_app_iff, in_map_iff. simpl.
  split.
  - intros [H|[[y [Hy Hin]]|[H|[]]]]; try discriminate. inversion Hy; subst; exact Hin.
  - intros Hin. right. left. exists x. auto.
Qed.

Lemma not_in_fix_msgs host f x : ~ In (ODriftMsg x) (OFixedHdr host :: map OFixMsg f).
Proof.
  simpl. rewrite in_map_iff. intros [H|[y [Hy _]]]; discriminate.
Qed.

End Blocks.

(** The summary the reducer prints once the scan went through. *)
Lemma parse_ansible_json_ok (loads : string -> option payload) s data dm fm :
  loads s = Some data ->
  scan_plays (default [] (data_plays data))
    (init_lists (default [] (data_stats data)), init_lists (default [] (data_stats data)))
    = inr (dm, fm) ->
  parse_ansible_json loads s =
    (OHeader :: flat_map (host_block dm fm) (default [] (data_stats data)), None).
Proof. intros Hl Hs. unfold parse_ansible_json. now rewrite Hl, Hs. Qed.

(** ** The scan and its [KeyError] *)

Lemma same_keys_refl m : same_keys m m.
Proof. intros h. reflexivity. Qed.

Lemma same_keys_trans m1 m2 m3 : same_keys m1 m2 -> same_keys m2 m3 -> same_keys m1 m3.
Proof. intros H1 H2 h. rewrite (H1 h), (H2 h). reflexivity. Qed.

Lemma insert_same_keys (m : msgmap) h l v : m !! h = Some l -> same_keys (<[h := v]> m) m.
Proof.
  intros E k. destruct (decide (h = k)) as [<-|Hne].
  - rewrite lookup_insert_eq, E. split; discriminate.
  - rewrite lookup_insert_ne by exact Hne. reflexivity.
Qed.

Lemma collect_spec hs : forall m,
  match collect hs m with
  | inr m' => same_keys m' m /\
              forall h r, In (h, r) hs -> skipped_of r = false -> m !! h <> None
  | inl _ => exists h r, In (h, r) hs /\ skipped_of r = false /\ m !! h = None
  end.
Proof.
  induction hs as [|[h r] hs IH]; intros m; simpl.
  - split; [apply same_keys_refl | intros ? ? []].
  - destruct (skipped_of r) eqn:Sk.
    + specialize (IH m). destruct (collect hs m) as [e|m'].
      * destruct IH as (h' & r' & Hin & Hs & Hn). exists h', r'. auto.
      * destruct IH as [K H]. split; [exact K|].
        intros h' r' [Heq|Hin] Hs; [inversion Heq; subst; congruence | eauto].
    + unfold append_msg. destruct (m !! h) as [l|] eqn:E; simpl.
      * pose proof (insert_same_keys m h l (l ++ [msg_of r])%list E) as K0.
        specialize (IH (<[h := (l ++ [msg_of r])%list]> m)).
        destruct (collect hs _) as [e|m'].
        -- destruct IH as (h' & r' & Hin & Hs & Hn). exists h', r'.
           split; [now right|]. split; [exact Hs|]. now apply K0.
        -- destruct IH as [K H]. split; [eapply same_keys_trans; eassumption|].
           intros h' r' [Heq|Hin] Hs.
           ++ inversion Heq; subst. congruence.
           ++ intros Hn. apply (H h' r' Hin Hs). now apply K0.
      * exists h, r. auto.
Qed.

Lemma scan_task_spec m0 t d f :
  same_keys d m0 -> same_keys f m0 ->
  match scan_task (d, f) t with
  | inr (d', f') => same_keys d' m0 /\ same_keys f' m0 /\ ~ offending m0 t
  | inl _ => offending m0 t
  end.
Proof.
  intros Kd Kf. unfold scan_task, offending, relevant.
  destruct (PyStr.mem (default "" (task_name t)) DRIFT_TASKS) eqn:Ed; cbn -[PyStr.mem collect].
  - pose proof (collect_spec (default [] (task_hosts t)) d) as C.
    destruct (collect (default [] (task_hosts t)) d) as [e|d']; simpl.
    + destruct C as (h & r & Hin & Hs & Hn). split; [reflexivity|].
      exists h, r. split; [exact Hin|]. split; [exact Hs|]. now apply Kd.
    + destruct C as [K H]. split; [eapply same_keys_trans; eassumption|].
      split; [exact Kf|]. intros [_ (h & r & Hin & Hs & Hn)].
      apply (H h r Hin Hs). now apply Kd.
  - destruct (PyStr.mem (default "" (task_name t)) FIX_TASKS) eqn:Ef; cbn -[PyStr.mem collect].
    + pose proof (collect_spec (default [] (task_hosts t)) f) as C.
      destruct (collect (default [] (task_hosts t)) f) as [e|f']; cbn -[PyStr.mem].
            * destruct C as (h & r & Hin & Hs & Hn). split; [reflexivity|].
        exists h, r. split; [exact Hin|]. split; [exact Hs|]. now apply Kf.
      * destruct C as [K H]. split; [exact Kd|].
        split; [eapply same_keys_trans; eassumption|].
        intros [_ (h & r & Hin & Hs & Hn)].
        apply (H h r Hin Hs). now apply Kf.
    + split; [exact Kd|]. split; [exact Kf|]. intros [Hr _]. discriminate.
Qed.

Lemma scan_tasks_spec m0 ts : forall d f,
  same_keys d m0 -> same_keys f m0 ->
  match scan_tasks ts (d, f) with
  | inr (d', f') => same_keys d' m0 /\ same_keys f' m0 /\ forall t, In t ts -> ~ offending m0 t
  | inl _ => exists t, In t ts /\ offending m0 t
  end.
Proof.
  induction ts as [|t ts IH]; intros d f Kd Kf; cbn [scan_tasks].
  - split; [exact Kd|]. split; [exact Kf|]. intros ? [].
  - pose proof (scan_task_spec m0 t d f Kd Kf) as S.
    destruct (scan_task (d, f) t) as [e|[d' f']]; simpl in S; cbn [bind].
                + exists t. split; [now left | exact S].
    + destruct S as (Kd' & Kf' & Ht).
      specialize (IH d' f' Kd' Kf').
      destruct (scan_tasks ts (d', f')) as [e|[d'' f'']]; simpl in IH |- *.
      * destruct IH as (t' & Hin & Ho). exists t'. split; [now right | exact Ho].
      * destruct IH as (K1 & K2 & H). split; [exact K1|]. split; [exact K2|].
        intros t' [<-|Hin]; auto.
Qed.

Lemma scan_plays_spec m0 ps : forall d f,
  same_keys d m0 -> same_keys f m0 ->
  match scan_plays ps (d, f) with
  | inr (d', f') => forall p t, In p ps -> In t (default [] (play_tasks p)) -> ~ offending m0 t
  | inl _ => exists p t, In p ps /\ In t (default [] (play_tasks p)) /\ offending m0 t
  end.
Proof.
  induction ps as [|p ps IH]; intros d f Kd Kf; cbn [scan_plays].
  - intros ? ? [].
  - pose proof (scan_tasks_spec m0 (default [] (play_tasks p)) d f Kd Kf) as S.
    destruct (scan_tasks (default [] (play_tasks p)) (d, f)) as [e|[d' f']]; simpl in S; cbn [bind].
    + destruct S as (t & Hin & Ho). exists p, t. split; [now left | auto].
    + destruct S as (Kd' & Kf' & Ht).
      specialize (IH d' f' Kd' Kf').
      destruct (scan_plays ps (d', f')) as [e|[d'' f'']]; simpl in IH |- *.
      * destruct IH as (p' & t & Hp & Ht' & Ho). exists p', t. split; [now right | auto].
      * intros p' t [<-|Hp] Hin; eauto.
Qed.

Lemma init_lists_lookup stats h :
  init_lists stats !! h = None <-> ~ In h (map fst stats).
Proof.
  induction stats as [|[k st] stats IH]; simpl.
  - unfold init_lists. simpl. rewrite lookup_empty. tauto.
  - unfold init_lists in *. simpl. destruct (decide (k = h)) as [<-|Hne].
    + rewrite lookup_insert_eq. split; [discriminate | intros H; exfalso; auto].
    + rewrite lookup_insert_ne by exact Hne. rewrite IH. intuition.
Qed.

End RunReportFacts.

(** ** Claims on the Run-Report Reducer *)
Module RunReportClaims.
Import RunReport Samples RunReportFacts.
Local Open Scope list_scope.

Lemma split_n_S n sep s :
  PyStr.split_n (S n) sep s =
  match PyStr.break_on sep s with
  | Some (a, b) => a :: PyStr.split_n n sep b
  | None => [s]
  end.
Proof. reflexivity. Qed.

(** The fixed-file path taken from a fix message is the text between its
    first ["FIXED: "] and the next one (or the end). *)
Lemma fixed_path_piece fmsg a b :
  PyStr.break_on "FIXED: " fmsg = Some (a, b) ->
  nth 1 (PyStr.split "FIXED: " fmsg) "" =
  match PyStr.break_on "FIXED: " b with Some (c, _) => c | None => b end.
Proof.
  intros H. destruct fmsg as [|ch rest]; [discriminate|].
  unfold PyStr.split. cbn [String.length].
  rewrite split_n_S, H. cbn [nth].
  rewrite split_n_S. destruct (PyStr.break_on "FIXED: " b) as [[c d]|]; reflexivity.
Qed.

Lemma in_drift_tail host r x :
  In (ODriftMsg x)
    match r with
    | [] => [OBlank]
    | _ => ODriftHdr host :: (map ODriftMsg r ++ [OBlank])
    end <-> In x r.
Proof.
  destruct r as [|y r].
  - simpl. split; [intros [H|[]]; discriminate | intros []].
  - apply in_drift_msgs.
Qed.

Lemma block_in_output (stats : list (string * stat)) dm fm host st :
  In (host, st) stats ->
  exists pre post, flat_map (host_block dm fm) stats = pre ++ host_block dm fm (host, st) ++ post.
Proof.
  intros Hin. apply in_split in Hin as (l1 & l2 & ->).
  rewrite flat_map_app. cbn [flat_map].
  exists (flat_map (host_block dm fm) l1), (flat_map (host_block dm fm) l2).
  reflexivity.
Qed.

(** C1 (the unreachable host is not reported): a drift result for a host
    that [stats] does not list makes [host_drifts[host]] raise [KeyError]
    before any host line is printed, so web1, unreachable, gets no
    UNREACHABLE line. *)
Theorem unreachable_host_lost_on_key_error :
  (0 < default 0 (stat_unreachable unreachable_stat))%Z /\
  In ("web1", unreachable_stat) (default [] (data_stats payload_missing_host)) /\
  parse_ansible_json (loads_const payload_missing_host) "stdout" = ([OHeader], Some (KeyError "web2")).
Proof.
  split; [reflexivity|]. split; [now left|]. reflexivity.
Qed.

(** C2 (amended): once the scan went through, for a host of [stats] that is
    neither unreachable nor failed and has fix messages, its printed block is
    part of the report, and one of its drift messages is printed exactly when
    no fixed-file path (from [fixed_files]: the stripped text after the first
    ["FIXED: "] up to the next one) occurs in it; the /etc/app.conf example
    prints FIXED with the drift message absent. *)
Theorem fix_suppression_by_substring (loads : string -> option payload) s data dm fm host st :
  loads s = Some data ->
  scan_plays (default [] (data_plays data))
    (init_lists (default [] (data_stats data)), init_lists (default [] (data_stats data)))
    = inr (dm, fm) ->
  In (host, st) (default [] (data_stats data)) ->
  (default 0 (stat_unreachable st) <= 0)%Z -> (default 0 (stat_failures st) <= 0)%Z ->
  default [] (fm !! host) <> [] ->
  (exists pre post, fst (parse_ansible_json loads s) = OHeader :: pre ++ host_block dm fm (host, st) ++ post) /\
  (forall dmsg, In dmsg (default [] (dm !! host)) ->
     (In (ODriftMsg dmsg) (host_block dm fm (host, st)) <->
      ~ exists ffile, In ffile (fixed_files (default [] (fm !! host))) /\
                      PyStr.contains ffile dmsg = true)) /\
  parse_ansible_json (loads_const payload_app) "stdout" =
    ([OHeader; OFixedHdr "web1"; OFixMsg "✅ FIXED: /etc/app.conf"; OBlank], None).
Proof.
  intros Hl Hs Hin Hu Hf Hne. split; [|split].
  - rewrite (parse_ansible_json_ok loads s data dm fm Hl Hs). cbn [fst].
    destruct (block_in_output _ dm fm host st Hin) as (pre & post & E).
    exists pre, post. now rewrite E.
  - intros dmsg Hd. unfold host_block. cbn [fst snd].
    rewrite report_host_fixes by assumption. cbv zeta.
    rewrite in_app_iff, in_drift_tail, in_remaining_drifts.
    split.
    + intros [Hc|[_ Hn]]; [exfalso; exact (not_in_fix_msgs _ _ _ Hc)| exact Hn].
    + intros Hn. right. split; assumption.
  - reflexivity.
Qed.

Lemma fix_suppression_by_substring_witness :
  exists dm fm,
    scan_plays (default [] (data_plays payload_other))
      (init_lists (default [] (data_stats payload_other)),
       init_lists (default [] (data_stats payload_other))) = inr (dm, fm) /\
    (In (ODriftMsg "Drift detected in /etc/other.conf") (host_block dm fm ("web1", ok_stat)) <->
     ~ exists ffile, In ffile (fixed_files (default [] (fm !! "web1"))) /\
                     PyStr.contains ffile "Drift detected in /etc/other.conf" = true).
Proof.
  do 2 eexists. split; [reflexivity|].
  apply (proj1 (proj2 (fix_suppression_by_substring (loads_const payload_other) "stdout"
           payload_other _ _ "web1" ok_stat eq_refl eq_refl
           ltac:(now left) ltac:(vm_compute; intros H; discriminate)
           ltac:(vm_compute; intros H; discriminate) ltac:(vm_compute; intros H; discriminate)))).
  vm_compute. now left.
Defined.

(** C2, refuted as stated: with the fix message
    ["✅ FIXED: /etc/app.conf FIXED: /etc/db.conf"] the text following the
    marker is not in the drift message, yet the drift message is dropped. *)
Lemma fixed_path_stops_at_next_marker :
  parse_ansible_json (loads_const payload_two_markers) "stdout" =
    ([OHeader; OFixedHdr "web1"; OFixMsg two_marker_fix; OBlank], None) /\
  match PyStr.break_on "FIXED: " two_marker_fix with
  | Some (_, after) => PyStr.contains (PyStr.strip after) "Drift detected in /etc/app.conf" = false
  | None => False
  end.
Proof. split; reflexivity. Qed.

(** C4 (the fix details are not printed): a fix result for a host that
    [stats] does not list raises [KeyError] during the scan, so web1, neither
    unreachable nor failed and with a fix message, gets no FIXED block. *)
Theorem fix_details_lost_on_key_error :
  In ("web1", ok_stat) (default [] (data_stats payload_fix_missing_host)) /\
  parse_ansible_json (loads_const payload_fix_missing_host) "stdout" = ([OHeader], Some (KeyError "web2")).
Proof. split; [now left | reflexivity]. Qed.

(** C6 (amended): on text the decoder rejects the reducer prints only the
    parse-failure line and returns: no header, no host line, no detail; the
    raw output is printed only by [main]'s own branch for a non-zero exit
    whose stdout does not start with ["{"], which does not call the reducer. *)
Theorem parse_failure_prints_only_message (loads : string -> option payload) s :
  loads s = None ->
  parse_ansible_json loads s = ([OParseFail], None) /\
  forall returncode stderr,
    quiet_report loads returncode s stderr =
      if negb (returncode =? 0)%Z && negb (String.prefix "{" (PyStr.strip s))
      then ([OExecFailed; ORaw stderr; ORaw s], Exited returncode)
      else ([OParseFail], if (returncode =? 0)%Z then Returned else Exited returncode).
Proof.
  intros Hl. split.
  - unfold parse_ansible_json. now rewrite Hl.
  - intros rc err. unfold quiet_report.
    destruct (negb (rc =? 0)%Z && negb (String.prefix "{" (PyStr.strip s))); [reflexivity|].
    unfold parse_ansible_json. now rewrite Hl.
Qed.

Lemma parse_failure_prints_only_message_witness :
  parse_ansible_json loads_reject "{ truncated" = ([OParseFail], None).
Proof. exact (proj1 (parse_failure_prints_only_message loads_reject "{ truncated" eq_refl)). Defined.

(** C6, refuted as stated: the playbook exits with 2 and prints a truncated
    JSON document; the operator sees the parse-failure line, not the raw
    output. *)
Lemma raw_output_not_surfaced :
  quiet_report loads_reject 2 "{ truncated" "" = ([OParseFail], Exited 2) /\
  ~ In (ORaw "{ truncated") (fst (quiet_report loads_reject 2 "{ truncated" "")).
Proof.
  split; [reflexivity|]. simpl. intros [H|[]]. discriminate.
Qed.

(** C10: on a decoded payload the reducer raises [KeyError] exactly when a
    drift or fix task has a non-skipped result for a host missing from
    [stats]; such a payload exists. *)
Theorem key_error_iff_host_missing :
  (forall (loads : string -> option payload) s data,
     loads s = Some data ->
     ((exists h, snd (parse_ansible_json loads s) = Some (KeyError h)) <->
      exists p t h r, In p (default [] (data_plays data)) /\
        In t (default [] (play_tasks p)) /\ relevant t = true /\
        In (h, r) (default [] (task_hosts t)) /\ skipped_of r = false /\
        ~ In h (map fst (default [] (data_stats data))))) /\
  snd (parse_ansible_json (loads_const payload_missing_host) "stdout") = Some (KeyError "web2").
Proof.
  split; [|reflexivity].
  intros loads s data Hl. unfold parse_ansible_json. rewrite Hl.
  set (m0 := init_lists (default [] (data_stats data))).
  pose proof (scan_plays_spec m0 (default [] (data_plays data)) m0 m0
                (same_keys_refl m0) (same_keys_refl m0)) as S.
  destruct (scan_plays (default [] (data_plays data)) (m0, m0)) as [[k]|[d f]]; cbn [snd].
  - split; [intros _ | eauto].
    destruct S as (p & t & Hp & Ht & Hr & h & r & Hin & Hs & Hn).
    exists p, t, h, r. repeat split; try assumption.
    now apply init_lists_lookup.
  - split; [intros [h Hc]; discriminate|].
    intros (p & t & h & r & Hp & Ht & Hr & Hin & Hs & Hn). exfalso.
    apply (S p t Hp Ht). split; [exact Hr|].
    exists h, r. repeat split; try assumption. now apply init_lists_lookup.
Qed.

Lemma key_error_iff_host_missing_witness :
  exists h, snd (parse_ansible_json (loads_const payload_missing_host) "stdout") = Some (KeyError h).
Proof.
  apply (proj1 key_error_iff_host_missing (loads_const payload_missing_host) "stdout"
           payload_missing_host eq_refl).
  exists (hd {| play_tasks := None |} (one_play [drift_task [("web2", shown "Drift detected in /etc/app.conf")]])),
         (drift_task [("web2", shown "Drift detected in /etc/app.conf")]),
         "web2", (shown "Drift detected in /etc/app.conf").
  split; [now left|]. split; [now left|]. split; [reflexivity|].
  split; [now left|]. split; [reflexivity|].
  simpl. intros [H|[]]. discriminate.
Defined.

End RunReportClaims.

(** ** Facts about the History Reducer *)
Module HistoryFacts.
Import History Samples.
Local Open Scope list_scope.

Lemma find_entry_update host f hr :
  find_entry host (update_entry host f hr) = option_map f (find_entry host hr).
Proof.
  induction hr as [|[h e] hr IH]; [reflexivity|].
  cbn [update_entry map fst snd find_entry] in *.
  destruct (String.eqb h host) eqn:E; cbn [find_entry fst]; rewrite E; [reflexivity|exact IH].
Qed.

Lemma find_entry_app_new host e hr :
  find_entry host hr = None -> find_entry host (hr ++ [(host, e)]) = Some e.
Proof.
  induction hr as [|[h e'] hr IH]; cbn [find_entry app].
  - intros _. now rewrite String.eqb_refl.
  - destruct (String.eqb h host); [discriminate | exact IH].
Qed.

Lemma find_entry_init host hr :
  exists e, find_entry host
    (match find_entry host hr with
     | Some _ => hr
     | None => hr ++ [(host, {| status := SOK; messages := [] |})]
     end) = Some e.
Proof.
  destruct (find_entry host hr) as [e|] eqn:E.
  - exists e. exact E.
  - eexists. now apply find_entry_app_new.
Qed.

Lemma apply_record_other status_str host file_path drift_type hr e :
  find_entry host hr = Some e ->
  status_str <> "DRIFT" -> status_str <> "FIXED" ->
  apply_record status_str host file_path drift_type hr = hr.
Proof.
  intros Hf Hd Hx. unfold apply_record. rewrite Hf.
  apply String.eqb_neq in Hd, Hx. now rewrite Hd, Hx.
Qed.

Lemma apply_record_drift host file_path drift_type hr :
  exists ms, find_entry host (apply_record "DRIFT" host file_path drift_type hr) =
             Some {| status := SDRIFT; messages := ms |}.
Proof.
  unfold apply_record. cbn [String.eqb Ascii.eqb Bool.eqb andb].
  rewrite find_entry_update. destruct (find_entry_init host hr) as [e E].
  rewrite E. eexists. reflexivity.
Qed.

Lemma apply_record_fixed host file_path drift_type hr :
  exists ms, find_entry host (apply_record "FIXED" host file_path drift_type hr) =
             Some {| status := SFIXED; messages := ms |}.
Proof.
  unfold apply_record. cbn [String.eqb Ascii.eqb Bool.eqb andb].
  rewrite find_entry_update. destruct (find_entry_init host hr) as [e E].
  rewrite E. eexists. reflexivity.
Qed.

Section Lines.
Variable strptime : string -> option datetime.
Variable start_time : datetime.

Lemma process_line_skip hr raw :
  String.prefix "[" (PyStr.strip raw) = false \/
  line_time strptime (PyStr.strip raw) = None \/
  (exists t, line_time strptime (PyStr.strip raw) = Some t /\ dt_lt t start_time = true) ->
  process_line strptime start_time hr raw = hr.
Proof.
  intros H. unfold process_line. cbv zeta.
  destruct (String.prefix "[" (PyStr.strip raw)) eqn:P; [|reflexivity]. cbn [negb].
  destruct H as [H|[H|(t & H & Hlt)]]; [discriminate| |]; rewrite H; [reflexivity|].
  now rewrite Hlt.
Qed.

Lemma before_cutoff_skip hr raw :
  before_cutoff strptime start_time raw = true -> process_line strptime start_time hr raw = hr.
Proof.
  unfold before_cutoff. intros H. apply andb_true_iff in H as [_ H].
  apply process_line_skip. right. right.
  destruct (line_time strptime (PyStr.strip raw)) as [t|]; [|discriminate].
  now exists t.
Qed.

Lemma not_record_skip hr raw :
  is_record strptime raw = false -> process_line strptime start_time hr raw = hr.
Proof.
  unfold is_record. intros H. apply process_line_skip.
  destruct (String.prefix "[" (PyStr.strip raw)); [right; left|now left].
  destruct (line_time strptime (PyStr.strip raw)); [discriminate|reflexivity].
Qed.

Lemma fold_skip lines : forall hr,
  (forall l hr', In l lines -> process_line strptime start_time hr' l = hr') ->
  fold_left (process_line strptime start_time) lines hr = hr.
Proof.
  induction lines as [|l lines IH]; intros hr H; [reflexivity|].
  cbn [fold_left]. rewrite H by now left. apply IH. intros l' hr' Hin. apply H. now right.
Qed.

Lemma fold_filter_cutoff lines : forall hr,
  fold_left (process_line strptime start_time) lines hr =
  fold_left (process_line strptime start_time)
    (List.filter (fun l => negb (before_cutoff strptime start_time l)) lines) hr.
Proof.
  induction lines as [|l lines IH]; intros hr; [reflexivity|].
  cbn [fold_left List.filter].
  destruct (before_cutoff strptime start_time l) eqn:B; cbn [negb fold_left].
  - rewrite before_cutoff_skip by exact B. apply IH.
  - apply IH.
Qed.

End Lines.

Lemma parse_parts_host parts : forall acc,
  (forall p, In p parts -> String.prefix "Host: " (PyStr.strip p) = false) ->
  fst (fst (parse_parts parts acc)) = fst (fst acc).
Proof.
  induction parts as [|p parts IH]; intros [[h f] t] H; [reflexivity|].
  cbn [parse_parts]. rewrite IH by (intros; apply H; now right).
  rewrite (H p) by now left.
  destruct (String.prefix "File: " _); [reflexivity|].
  destruct (String.prefix "Type: " _); reflexivity.
Qed.

Lemma parse_parts_file parts : forall acc,
  (forall p, In p parts -> String.prefix "File: " (PyStr.strip p) = false) ->
  snd (fst (parse_parts parts acc)) = snd (fst acc).
Proof.
  induction parts as [|p parts IH]; intros [[h f] t] H; [reflexivity|].
  cbn [parse_parts]. rewrite IH by (intros; apply H; now right).
  destruct (String.prefix "Host: " _); [reflexivity|].
  rewrite (H p) by now left.
  destruct (String.prefix "Type: " _); reflexivity.
Qed.

Lemma parse_parts_type parts : forall acc,
  (forall p, In p parts -> String.prefix "Type: " (PyStr.strip p) = false) ->
  snd (parse_parts parts acc) = snd acc.
Proof.
  induction parts as [|p parts IH]; intros [[h f] t] H; [reflexivity|].
  cbn [parse_parts]. rewrite IH by (intros; apply H; now right).
  destruct (String.prefix "Host: " _); [reflexivity|].
  destruct (String.prefix "File: " _); [reflexivity|].
  now rewrite (H p) by now left.
Qed.

Lemma render_no_error hr : ~ In HError (flat_map render_host hr).
Proof.
  intros Hin. apply in_flat_map in Hin as ([h e] & _ & Hin).
  unfold render_host in Hin. destruct (status e); cbn [map app In] in Hin.
  - destruct Hin as [H|[H|[]]]; discriminate.
  - destruct Hin as [H|Hin]; [discriminate|].
    apply in_app_iff in Hin as [Hin|[H|[]]]; [|discriminate].
    apply in_map_iff in Hin as (x & H & _). discriminate.
  - destruct Hin as [H|Hin]; [discriminate|].
    apply in_app_iff in Hin as [Hin|[H|[]]]; [|discriminate].
    apply in_map_iff in Hin as (x & H & _). discriminate.
Qed.

End HistoryFacts.

(** ** Claims on state precedence and the History Reducer *)
Module HistoryClaims.
Import History Samples HistoryFacts.
Local Open Scope list_scope.

(** C3 (amended): in the Run-Report Reducer an unreachable counter decides
    UNREACHABLE, else a failures counter decides FAILED, else fix messages
    always print the FIXED line first whatever the drift messages; in the
    History Reducer a record whose status is neither DRIFT nor FIXED (OK
    among them) leaves an existing host unchanged, while each DRIFT record
    sets DRIFTED and each FIXED record sets FIXED, so the later of the two
    wins. *)
Theorem state_precedence_per_reducer :
  (forall host st d f,
     (0 < default 0 (RunReport.stat_unreachable st))%Z ->
     RunReport.report_host host st d f = [RunReport.OUnreachable host]) /\
  (forall host st d f,
     (default 0 (RunReport.stat_unreachable st) <= 0)%Z ->
     (0 < default 0 (RunReport.stat_failures st))%Z ->
     RunReport.report_host host st d f = [RunReport.OFailed host]) /\
  (forall host st d f,
     (default 0 (RunReport.stat_unreachable st) <= 0)%Z ->
     (default 0 (RunReport.stat_failures st) <= 0)%Z -> f <> [] ->
     exists rest, RunReport.report_host host st d f =
                  RunReport.OFixedHdr host :: map RunReport.OFixMsg f ++ rest) /\
  (forall status_str host file_path drift_type hr e,
     find_entry host hr = Some e -> status_str <> "DRIFT" -> status_str <> "FIXED" ->
     apply_record status_str host file_path drift_type hr = hr) /\
  (forall host file_path drift_type hr,
     exists ms, find_entry host (apply_record "DRIFT" host file_path drift_type hr) =
                Some {| status := SDRIFT; messages := ms |}) /\
  (forall host file_path drift_type hr,
     exists ms, find_entry host (apply_record "FIXED" host file_path drift_type hr) =
                Some {| status := SFIXED; messages := ms |}).
Proof.
  split; [exact RunReportFacts.report_host_unreachable|].
  split; [exact RunReportFacts.report_host_failed|].
  split.
  - intros host st d f Hu Hf Hne.
    rewrite RunReportFacts.report_host_fixes by assumption.
    eexists. reflexivity.
  - split; [exact apply_record_other|].
    split; [exact apply_record_drift | exact apply_record_fixed].
Qed.

Lemma state_precedence_per_reducer_witness :
  RunReport.report_host "web1" unreachable_stat ["Drift detected in /etc/app.conf"]
    ["✅ FIXED: /etc/app.conf"] = [RunReport.OUnreachable "web1"].
Proof. apply (proj1 state_precedence_per_reducer). reflexivity. Defined.

(** C3, refuted as stated: in the History Reducer a DRIFT record after a
    FIXED record for web1 turns its state from FIXED back to DRIFTED. *)
Lemma drift_after_fix_overrides :
  option_map status (find_entry "web1" (reduce_lines strptime_fixed t0 [fixed_line])) = Some SFIXED /\
  option_map status (find_entry "web1" (reduce_lines strptime_fixed t0 [fixed_line; drift_line2]))
    = Some SDRIFT.
Proof. split; vm_compute; reflexivity. Qed.

(** C5: records earlier than the cutoff do not change the report (dropping
    them gives the same result), the others are folded in file order, and a
    log whose every record is earlier than the cutoff gives a report with no
    host. *)
Theorem cutoff_ignores_earlier_records (strptime : string -> option datetime) start_time
    (lines : list string) :
  reduce_lines strptime start_time lines =
    reduce_lines strptime start_time
      (List.filter (fun l => negb (before_cutoff strptime start_time l)) lines) /\
  (forall l1 l2, reduce_lines strptime start_time (l1 ++ l2) =
     fold_left (process_line strptime start_time) l2 (reduce_lines strptime start_time l1)) /\
  ((forall l, In l lines -> is_record strptime l = true -> before_cutoff strptime start_time l = true) ->
   parse_audit_log strptime start_time (LogLines lines) = [HHeader]).
Proof.
  split; [apply fold_filter_cutoff|]. split.
  - intros l1 l2. unfold reduce_lines. apply fold_left_app.
  - intros H. unfold parse_audit_log, reduce_lines.
    rewrite fold_skip; [reflexivity|].
    intros l hr Hin. destruct (is_record strptime l) eqn:R.
    + apply before_cutoff_skip. now apply H.
    + now apply not_record_skip.
Qed.

Lemma cutoff_ignores_earlier_records_witness :
  parse_audit_log strptime_fixed
    {| year := 2025; month := 1; day := 1; hour := 0; minute := 0; second := 0; microsecond := 0 |}%Z
    (LogLines [ok_line; drift_line; fixed_line]) = [HHeader].
Proof.
  apply (proj2 (proj2 (cutoff_ignores_earlier_records strptime_fixed _ [ok_line; drift_line; fixed_line]))).
  intros l Hin _. simpl in Hin.
  destruct Hin as [<-|[<-|[<-|[]]]]; vm_compute; reflexivity.
Defined.

(** C7: a record with status OK leaves an existing host as it is, and a
    host with considered records OK, DRIFT, OK ends DRIFTED. *)
Theorem ok_record_keeps_state :
  (forall host file_path drift_type hr e,
     find_entry host hr = Some e -> apply_record "OK" host file_path drift_type hr = hr) /\
  option_map status (find_entry "web1" (reduce_lines strptime_fixed t0 [ok_line; drift_line; ok_line2]))
    = Some SDRIFT.
Proof.
  split.
  - intros host fp dt hr e Hf. apply (apply_record_other "OK" host fp dt hr e Hf); discriminate.
  - vm_compute. reflexivity.
Qed.

Lemma ok_record_keeps_state_witness :
  apply_record "OK" "web1" "/etc/app.conf" "none"
    [("web1", {| status := SDRIFT; messages := ["File: /etc/app.conf (Type: content)"] |})] =
    [("web1", {| status := SDRIFT; messages := ["File: /etc/app.conf (Type: content)"] |})].
Proof. apply (proj1 ok_record_keeps_state) with (e := {| status := SDRIFT; messages := ["File: /etc/app.conf (Type: content)"] |}). reflexivity. Defined.

(** C8 (amended): the History Reducer has no failing path for a readable
    log: a line that, once stripped of surrounding whitespace, does not start
    with ["["], or whose bracketed timestamp does not parse, leaves the report
    unchanged; and Host, File and Type default to ["Unknown"] when no detail
    part carries them. *)
Theorem malformed_lines_skipped :
  (forall (strptime : string -> option datetime) start_time hr raw,
     String.prefix "[" (PyStr.strip raw) = false \/ line_time strptime (PyStr.strip raw) = None ->
     process_line strptime start_time hr raw = hr) /\
  (forall (strptime : string -> option datetime) start_time lines,
     ~ In HError (parse_audit_log strptime start_time (LogLines lines))) /\
  (forall details,
     (forall p, In p (PyStr.split " | " details) -> String.prefix "Host: " (PyStr.strip p) = false) ->
     fst (fst (parse_details details)) = "Unknown") /\
  (forall details,
     (forall p, In p (PyStr.split " | " details) -> String.prefix "File: " (PyStr.strip p) = false) ->
     snd (fst (parse_details details)) = "Unknown") /\
  (forall details,
     (forall p, In p (PyStr.split " | " details) -> String.prefix "Type: " (PyStr.strip p) = false) ->
     snd (parse_details details) = "Unknown").
Proof.
  split; [|split; [|split; [|split]]].
  - intros strptime start_time hr raw [H|H]; apply process_line_skip; auto.
  - intros strptime start_time lines [H|H]; [discriminate|]. exact (render_no_error _ H).
  - intros details H. exact (parse_parts_host _ _ H).
  - intros details H. exact (parse_parts_file _ _ H).
  - intros details H. exact (parse_parts_type _ _ H).
Qed.

Lemma malformed_lines_skipped_witness :
  process_line strptime_fixed t0 [] "[not a time] [DRIFT] Host: web1" = [] /\
  fst (fst (parse_details "File: /etc/app.conf")) = "Unknown".
Proof.
  split.
  - apply (proj1 malformed_lines_skipped). right. vm_compute. reflexivity.
  - apply (proj1 (proj2 (proj2 malformed_lines_skipped))).
    intros p Hin. vm_compute in Hin. destruct Hin as [<-|[]]. reflexivity.
Defined.

(** C8, refuted as stated: a record indented by two spaces does not begin
    with ["["] but is stripped first and counted for web1. *)
Lemma indented_record_counted :
  String.prefix "[" indented_line = false /\
  option_map status (find_entry "web1" (reduce_lines strptime_fixed t0 [indented_line])) = Some SDRIFT.
Proof. split; vm_compute; reflexivity. Qed.

End HistoryClaims.

(** ** Claim on the vault relay *)
Module VaultClaims.
Import Vault.
Local Open Scope list_scope.

Lemma setup_shape arg prompt_input tmp_path cmd_list :
  String.eqb arg "" = false ->
  exists pre,
    file_writes pre = [] /\
    setup_vault_password (Some arg) prompt_input tmp_path cmd_list =
      (pre ++ [ECreateTemp tmp_path; EWrite tmp_path script_line1;
               EWrite tmp_path script_line2; EChmod tmp_path 448%Z;
               ERegisterCleanup tmp_path],
       cmd_list ++ ["--vault-password-file"; tmp_path],
       Some (if String.eqb arg "__PROMPT__" then prompt_input else arg)).
Proof.
  intros H. destruct arg as [|c r]; [discriminate|].
  unfold setup_vault_password.
  destruct (String.eqb (String c r) "__PROMPT__").
  - exists [EPrompt]. split; reflexivity.
  - exists []. split; reflexivity.
Qed.

(** C9: for any two non-empty [--vault-pass] arguments and prompt answers,
    [setup_vault_password] writes the same two lines into the relay script
    (the shebang and the echo of [$SENTINEL_VAULT_PASS]) and extends the
    command the same way; the secret reaches the playbook only as the
    [SENTINEL_VAULT_PASS] variable of its environment. *)
Theorem relay_script_independent_of_secret arg1 arg2 prompt1 prompt2 tmp_path cmd_list :
  String.eqb arg1 "" = false -> String.eqb arg2 "" = false ->
  file_writes (fst (fst (setup_vault_password (Some arg1) prompt1 tmp_path cmd_list))) =
    [(tmp_path, script_line1); (tmp_path, script_line2)] /\
  file_writes (fst (fst (setup_vault_password (Some arg2) prompt2 tmp_path cmd_list))) =
    file_writes (fst (fst (setup_vault_password (Some arg1) prompt1 tmp_path cmd_list))) /\
  snd (fst (setup_vault_password (Some arg2) prompt2 tmp_path cmd_list)) =
    snd (fst (setup_vault_password (Some arg1) prompt1 tmp_path cmd_list)) /\
  (forall environ,
     let secret := if String.eqb arg1 "__PROMPT__" then prompt1 else arg1 in
     String.eqb secret "" = false ->
     run_env environ (snd (setup_vault_password (Some arg1) prompt1 tmp_path cmd_list))
       !! "SENTINEL_VAULT_PASS" = Some secret).
Proof.
  intros H1 H2.
  destruct (setup_shape arg1 prompt1 tmp_path cmd_list H1) as (pre1 & W1 & E1).
  destruct (setup_shape arg2 prompt2 tmp_path cmd_list H2) as (pre2 & W2 & E2).
  rewrite E1, E2. cbn [fst snd].
  unfold file_writes in *. rewrite !flat_map_app, W1, W2.
  split; [reflexivity|]. split; [reflexivity|]. split; [reflexivity|].
  intros environ. cbv zeta. intros Hs. unfold run_env.
  destruct (if String.eqb arg1 "__PROMPT__" then prompt1 else arg1) as [|c r]; [discriminate|].
  apply lookup_insert_eq.
Qed.

Lemma relay_script_independent_of_secret_witness :
  file_writes (fst (fst (setup_vault_password (Some "hunter2") "" "/tmp/tmpx1.sh" ["ansible-playbook"]))) =
  file_writes (fst (fst (setup_vault_password (Some "__PROMPT__") "s3cret" "/tmp/tmpx1.sh" ["ansible-playbook"]))).
Proof.
  exact (proj1 (proj2 (relay_script_independent_of_secret "__PROMPT__" "hunter2" "s3cret" ""
                         "/tmp/tmpx1.sh" ["ansible-playbook"] eq_refl eq_refl))).
Defined.

End VaultClaims.

(** ** The scan builds each host's lists in document order *)
Module ScanFacts.
Import RunReport ScanSpec Samples RunReportFacts.
Local Open Scope list_scope.

Lemma option_map_app_nil (o : option (list string)) : option_map (fun l => l ++ []) o = o.
Proof. destruct o; simpl; [now rewrite app_nil_r | reflexivity]. Qed.

Lemma option_map_app_app (o : option (list string)) x y :
  option_map (fun l => l ++ y) (option_map (fun l => l ++ x) o) = option_map (fun l => l ++ (x ++ y)) o.
Proof. destruct o; simpl; [now rewrite app_assoc | reflexivity]. Qed.

Lemma collect_msgs hs : forall m m',
  collect hs m = inr m' ->
  forall h, m' !! h = option_map (fun l => l ++ host_msgs h hs) (m !! h).
Proof.
  induction hs as [|[h' r] hs IH]; intros m m' H h; cbn [collect] in H.
  - inversion H; subst. symmetry. apply option_map_app_nil.
  - unfold host_msgs. cbn [flat_map fst snd]. fold (host_msgs h hs).
    destruct (skipped_of r) eqn:Sk.
    + rewrite andb_false_r. exact (IH m m' H h).
    + unfold append_msg in H. destruct (m !! h') as [l|] eqn:E; [|discriminate].
      cbn [bind ret] in H. rewrite (IH _ _ H h). cbn [negb]. rewrite andb_true_r.
      destruct (String.eqb_spec h' h) as [<-|Hne].
      * rewrite lookup_insert_eq, E. simpl. now rewrite <- app_assoc.
      * rewrite lookup_insert_ne by exact Hne. reflexivity.
Qed.

Lemma scan_task_msgs t : forall d f d' f',
  scan_task (d, f) t = inr (d', f') ->
  forall h,
    d' !! h = option_map (fun l => l ++ (if is_drift_task t then host_msgs h (default [] (task_hosts t)) else [])) (d !! h) /\
    f' !! h = option_map (fun l => l ++ (if is_fix_task t then host_msgs h (default [] (task_hosts t)) else [])) (f !! h).
Proof.
  intros d f d' f' H h. unfold scan_task in H. unfold is_fix_task, is_drift_task.
  destruct (PyStr.mem (default "" (task_name t)) DRIFT_TASKS) eqn:Ed; cbn -[PyStr.mem collect] in H |- *.
  - destruct (collect (default [] (task_hosts t)) d) as [e|d1] eqn:C; cbn [bind ret] in H; [discriminate|].
    inversion H; subst. split; [exact (collect_msgs _ _ _ C h) | symmetry; apply option_map_app_nil].
  - destruct (PyStr.mem (default "" (task_name t)) FIX_TASKS) eqn:Ef; cbn -[PyStr.mem collect] in H |- *.
    + destruct (collect (default [] (task_hosts t)) f) as [e|f1] eqn:C; cbn [bind ret] in H; [discriminate|].
      inversion H; subst. split; [symmetry; apply option_map_app_nil | exact (collect_msgs _ _ _ C h)].
    + inversion H; subst. split; symmetry; apply option_map_app_nil.
Qed.

Lemma scan_tasks_msgs ts : forall d f d' f',
  scan_tasks ts (d, f) = inr (d', f') ->
  forall h,
    d' !! h = option_map (fun l => l ++ flat_map (fun t => if is_drift_task t then host_msgs h (default [] (task_hosts t)) else []) ts) (d !! h) /\
    f' !! h = option_map (fun l => l ++ flat_map (fun t => if is_fix_task t then host_msgs h (default [] (task_hosts t)) else []) ts) (f !! h).
Proof.
  induction ts as [|t ts IH]; intros d f d' f' H h; cbn [scan_tasks] in H.
  - inversion H; subst. split; symmetry; apply option_map_app_nil.
  - destruct (scan_task (d, f) t) as [e|[d1 f1]] eqn:S; cbn [bind] in H; [discriminate|].
    destruct (scan_task_msgs t d f d1 f1 S h) as [Sd Sf].
    destruct (IH d1 f1 d' f' H h) as [Id If].
    cbn [flat_map]. rewrite Id, If, Sd, Sf, !option_map_app_app. split; reflexivity.
Qed.

Lemma scan_plays_msgs ps : forall d f d' f',
  scan_plays ps (d, f) = inr (d', f') ->
  forall h,
    d' !! h = option_map (fun l => l ++ play_msgs is_drift_task h ps) (d !! h) /\
    f' !! h = option_map (fun l => l ++ play_msgs is_fix_task h ps) (f !! h).
Proof.
  induction ps as [|p ps IH]; intros d f d' f' H h; cbn [scan_plays] in H.
  - inversion H; subst. split; symmetry; apply option_map_app_nil.
  - destruct (scan_tasks (default [] (play_tasks p)) (d, f)) as [e|[d1 f1]] eqn:S; cbn [bind] in H; [discriminate|].
    destruct (scan_tasks_msgs _ d f d1 f1 S h) as [Sd Sf].
    destruct (IH d1 f1 d' f' H h) as [Id If].
    unfold play_msgs. cbn [flat_map]. fold (play_msgs is_drift_task h ps). fold (play_msgs is_fix_task h ps).
    rewrite Id, If, Sd, Sf, !option_map_app_app. split; reflexivity.
Qed.

Lemma init_lists_nil stats h l : init_lists stats !! h = Some l -> l = [].
Proof.
  induction stats as [|[k st] stats IH]; unfold init_lists; simpl.
  - rewrite lookup_empty. discriminate.
  - destruct (decide (k = h)) as [<-|Hne].
    + rewrite lookup_insert_eq. congruence.
    + rewrite lookup_insert_ne by exact Hne. exact IH.
Qed.

Lemma scan_from_init stats ps dm fm h :
  scan_plays ps (init_lists stats, init_lists stats) = inr (dm, fm) ->
  In h (map fst stats) ->
  dm !! h = Some (play_msgs is_drift_task h ps) /\ fm !! h = Some (play_msgs is_fix_task h ps).
Proof.
  intros H Hin. destruct (scan_plays_msgs ps _ _ dm fm H h) as [D F].
  destruct (init_lists stats !! h) as [l|] eqn:E.
  - apply init_lists_nil in E as ->. rewrite D, F. split; reflexivity.
  - apply init_lists_lookup in E. contradiction.
Qed.

Lemma flat_map_ext_in {A B} (f g : A -> list B) (l : list A) :
  (forall a, In a l -> f a = g a) -> flat_map f l = flat_map g l.
Proof.
  induction l as [|a l IH]; intros H; [reflexivity|].
  cbn [flat_map]. rewrite (H a (or_introl eq_refl)), IH; [reflexivity|].
  intros b Hb. apply H. now right.
Qed.

(** When the scan finishes, the drift list of each host of [stats] holds the
    messages of its non-skipped results in the drift tasks, and its fix list
    those in the fix task, each in the order of the plays, tasks and results
    of the JSON; a skipped result and any other task contribute nothing. *)
Theorem scan_lists_in_document_order stats ps dm fm h :
  scan_plays ps (init_lists stats, init_lists stats) = inr (dm, fm) ->
  In h (map fst stats) ->
  dm !! h = Some (play_msgs is_drift_task h ps) /\ fm !! h = Some (play_msgs is_fix_task h ps).
Proof. exact (scan_from_init stats ps dm fm h). Qed.

Lemma scan_lists_in_document_order_witness :
  exists dm fm,
    scan_plays (default [] (data_plays payload_app))
      (init_lists (default [] (data_stats payload_app)), init_lists (default [] (data_stats payload_app)))
      = inr (dm, fm) /\
    dm !! "web1" = Some ["Drift detected in /etc/app.conf"] /\ fm !! "web1" = Some ["✅ FIXED: /etc/app.conf"].
Proof.
  do 2 eexists. split; [reflexivity|].
  apply (scan_lists_in_document_order (default [] (data_stats payload_app))
           (default [] (data_plays payload_app)) _ _ "web1" eq_refl (or_introl eq_refl)).
Defined.

(** When the reducer prints its summary without an exception, the summary
    is the header followed, for each host of [stats] in order, by the block
    [report_host] builds from that host's drift and fix messages in document
    order. *)
Theorem reducer_output_per_host (loads : string -> option payload) s data o :
  loads s = Some data ->
  parse_ansible_json loads s = (o, None) ->
  o = OHeader :: flat_map (fun hs => report_host (fst hs) (snd hs)
                             (play_msgs is_drift_task (fst hs) (default [] (data_plays data)))
                             (play_msgs is_fix_task (fst hs) (default [] (data_plays data))))
                  (default [] (data_stats data)).
Proof.
  intros L H. unfold parse_ansible_json in H. rewrite L in H.
  destruct (scan_plays _ _) as [e|[dm fm]] eqn:S; [discriminate|].
  inversion H; subst. f_equal. apply flat_map_ext_in. intros [h st] Hin.
  unfold host_block. cbn [fst snd].
  destruct (scan_from_init _ _ dm fm h S (in_map fst _ _ Hin)) as [D F].
  now rewrite D, F.
Qed.

Lemma reducer_output_per_host_witness :
  fst (parse_ansible_json (loads_const payload_app) "stdout") =
  OHeader :: flat_map (fun hs => report_host (fst hs) (snd hs)
                         (play_msgs is_drift_task (fst hs) (default [] (data_plays payload_app)))
                         (play_msgs is_fix_task (fst hs) (default [] (data_plays payload_app))))
              (default [] (data_stats payload_app)).
Proof.
  apply (reducer_output_per_host (loads_const payload_app) "stdout" payload_app _ eq_refl).
  vm_compute. reflexivity.
Defined.

(** Every host block starts with one status line naming that host:
    UNREACHABLE, FAILED, Compliant, DRIFT FIXED or DRIFT DETECTED. *)
Theorem host_block_starts_with_status host st d f :
  exists l rest, report_host host st d f = l :: rest /\
    In l [OUnreachable host; OFailed host; OCompliant host; OFixedHdr host; ODriftHdr host].
Proof.
  unfold report_host.
  destruct (0 <? default 0 (stat_unreachable st))%Z; [do 2 eexists; split; [reflexivity | simpl; tauto]|].
  destruct (0 <? default 0 (stat_failures st))%Z; [do 2 eexists; split; [reflexivity | simpl; tauto]|].
  destruct d as [|x d], f as [|y f].
  - do 2 eexists. split; [reflexivity | simpl; tauto].
  - do 2 eexists. split; [reflexivity | simpl; tauto].
  - cbn [app]. destruct (remaining_drifts (fixed_files []) (x :: d)) as [|z r] eqn:R.
    + rewrite remaining_drifts_nil in R. discriminate.
    + do 2 eexists. split; [reflexivity | simpl; tauto].
  - do 2 eexists. split; [reflexivity | simpl; tauto].
Qed.

(** A host that is neither unreachable nor failed is printed as Compliant
    exactly when it has no drift and no fix message, and the Compliant line
    is then its whole block. *)
Theorem compliant_iff_no_messages host st d f :
  (default 0 (stat_unreachable st) <= 0)%Z -> (default 0 (stat_failures st) <= 0)%Z ->
  (In (OCompliant host) (report_host host st d f) <-> d = [] /\ f = []) /\
  (d = [] -> f = [] -> report_host host st d f = [OCompliant host]).
Proof.
  intros U F. unfold report_host.
  replace (0 <? default 0 (stat_unreachable st))%Z with false by lia.
  replace (0 <? default 0 (stat_failures st))%Z with false by lia.
  split; [|intros -> ->; reflexivity].
  destruct d as [|x d], f as [|y f]; [simpl; tauto | | |].
  all: split; [| intros [H1 H2]; discriminate].
  all: intros Hin; exfalso; cbn [app] in Hin.
  all: try destruct (remaining_drifts _ _).
  all: repeat match goal with
         | H : In _ (_ ++ _) |- _ => apply in_app_or in H; destruct H as [H|H]
         | H : In _ (_ :: _) |- _ => destruct H as [H|H]
         | H : In _ (map _ _) |- _ => apply in_map_iff in H; destruct H as (? & H & _)
         | H : In _ [] |- _ => destruct H
         | H : _ = _ |- _ => discriminate H
         end.
Qed.

Lemma compliant_iff_no_messages_witness :
  report_host "web1" ok_stat [] [] = [OCompliant "web1"].
Proof.
  apply (proj2 (compliant_iff_no_messages "web1" ok_stat [] [] ltac:(vm_compute; discriminate)
                  ltac:(vm_compute; discriminate)) eq_refl eq_refl).
Defined.

End ScanFacts.

(** ** Invariants of the history reducer *)
Module HistoryInvariants.
Import History Samples HistoryFacts.
Local Open Scope list_scope.

Lemma update_entry_keys host f hr : map fst (update_entry host f hr) = map fst hr.
Proof.
  induction hr as [|[h e] hr IH]; [reflexivity|].
  cbn [update_entry map fst] in *. destruct (String.eqb h host); cbn [fst]; f_equal; exact IH.
Qed.

Lemma find_entry_none host hr : find_entry host hr = None <-> ~ In host (map fst hr).
Proof.
  induction hr as [|[h e] hr IH]; cbn [find_entry map fst In]; [tauto|].
  destruct (String.eqb_spec h host) as [<-|Hne]; [split; [discriminate | tauto]|].
  rewrite IH. intuition.
Qed.

Lemma find_entry_update_ne h host f hr :
  h <> host -> find_entry h (update_entry host f hr) = find_entry h hr.
Proof.
  intros Hne. induction hr as [|[k e] hr IH]; [reflexivity|].
  cbn [update_entry map fst snd find_entry] in *.
  destruct (String.eqb_spec k host) as [<-|Hk]; cbn [find_entry fst].
  - destruct (String.eqb_spec k h) as [<-|_]; [congruence | exact IH].
  - destruct (String.eqb k h); [reflexivity | exact IH].
Qed.

Lemma find_entry_app_ne h host e hr :
  h <> host -> find_entry h (hr ++ [(host, e)]) = find_entry h hr.
Proof.
  intros Hne. induction hr as [|[k e'] hr IH]; cbn [find_entry app].
  - destruct (String.eqb_spec host h); [congruence | reflexivity].
  - destruct (String.eqb k h); [reflexivity | exact IH].
Qed.

Lemma apply_record_keys s host fp dt hr :
  map fst (apply_record s host fp dt hr) =
  match find_entry host hr with Some _ => map fst hr | None => map fst hr ++ [host] end.
Proof.
  unfold apply_record.
  destruct (String.eqb s "DRIFT"); [|destruct (String.eqb s "FIXED")]; try rewrite update_entry_keys;
  destruct (find_entry host hr); rewrite ?map_app; reflexivity.
Qed.

Lemma apply_record_ne s host fp dt hr h :
  h <> host -> find_entry h (apply_record s host fp dt hr) = find_entry h hr.
Proof.
  intros Hne. unfold apply_record.
  assert (E : find_entry h (match find_entry host hr with
                            | Some _ => hr
                            | None => hr ++ [(host, {| status := SOK; messages := [] |})]
                            end) = find_entry h hr)
    by (destruct (find_entry host hr); [reflexivity | now apply find_entry_app_ne]).
  destruct (String.eqb s "DRIFT"); [|destruct (String.eqb s "FIXED")];
    rewrite ?find_entry_update_ne by exact Hne; exact E.
Qed.

Lemma apply_record_grows s host fp dt hr e :
  find_entry host hr = Some e ->
  exists e' extra, find_entry host (apply_record s host fp dt hr) = Some e' /\ messages e' = messages e ++ extra.
Proof.
  intros E. unfold apply_record. rewrite E.
  destruct (String.eqb s "DRIFT"); [|destruct (String.eqb s "FIXED")];
    rewrite ?find_entry_update, ?E; cbn [option_map messages]; do 2 eexists;
    (split; [reflexivity|]); [reflexivity | reflexivity | symmetry; apply app_nil_r].
Qed.

Section Lines.
Variable strptime : string -> option datetime.
Variable start_time : datetime.

(** [process_line] either leaves the report alone or is one [apply_record]. *)
Lemma process_line_cases hr raw :
  process_line strptime start_time hr raw = hr \/
  exists s host fp dt, process_line strptime start_time hr raw = apply_record s host fp dt hr.
Proof.
  unfold process_line. cbv zeta.
  destruct (negb (String.prefix "[" (PyStr.strip raw))); [now left|].
  destruct (line_time strptime (PyStr.strip raw)) as [t|]; [|now left].
  destruct (dt_lt t start_time); [now left|].
  destruct (PyStr.split_n 2 "] " (PyStr.strip raw)) as [|a [|b rest]]; [now left | now left |].
  destruct (parse_details _) as [[h fp] dt]. right. do 4 eexists. reflexivity.
Qed.

Lemma fold_keys lines : forall hr,
  NoDup (map fst hr) ->
  NoDup (map fst (fold_left (process_line strptime start_time) lines hr)) /\
  exists new, map fst (fold_left (process_line strptime start_time) lines hr) = map fst hr ++ new.
Proof.
  induction lines as [|raw lines IH]; intros hr Nd; cbn [fold_left].
  - split; [exact Nd | exists []; now rewrite app_nil_r].
  - assert (Step : NoDup (map fst (process_line strptime start_time hr raw)) /\
                   exists new, map fst (process_line strptime start_time hr raw) = map fst hr ++ new).
    { destruct (process_line_cases hr raw) as [->|(s & host & fp & dt & ->)];
        [split; [exact Nd | exists []; now rewrite app_nil_r]|].
      rewrite apply_record_keys. destruct (find_entry host hr) eqn:F.
      - split; [exact Nd | exists []; now rewrite app_nil_r].
      - split; [|now exists [host]].
        apply find_entry_none in F.
        apply NoDup_app. split; [exact Nd|]. split; [|apply NoDup_singleton].
        intros x Hx Hx'. apply list_elem_of_singleton in Hx' as ->.
        apply F, list_elem_of_In, Hx. }
    destruct Step as [Nd1 [new1 E1]].
    destruct (IH _ Nd1) as [Nd2 [new2 E2]].
    split; [exact Nd2|]. exists (new1 ++ new2). now rewrite E2, E1, app_assoc.
Qed.

Lemma fold_grows lines : forall hr h e,
  find_entry h hr = Some e ->
  exists e' extra, find_entry h (fold_left (process_line strptime start_time) lines hr) = Some e' /\
                   messages e' = messages e ++ extra.
Proof.
  induction lines as [|raw lines IH]; intros hr h e F; cbn [fold_left].
  - exists e, []. split; [exact F | now rewrite app_nil_r].
  - assert (Step : exists e1 extra1, find_entry h (process_line strptime start_time hr raw) = Some e1 /\
                                     messages e1 = messages e ++ extra1).
    { destruct (process_line_cases hr raw) as [->|(s & host & fp & dt & ->)];
        [exists e, []; split; [exact F | now rewrite app_nil_r]|].
      destruct (String.eqb_spec h host) as [<-|Hne].
      - now apply apply_record_grows.
      - exists e, []. rewrite apply_record_ne by exact Hne. split; [exact F | now rewrite app_nil_r]. }
    destruct Step as (e1 & x1 & F1 & M1).
    destruct (IH _ _ _ F1) as (e2 & x2 & F2 & M2).
    exists e2, (x1 ++ x2). split; [exact F2|]. now rewrite M2, M1, app_assoc.
Qed.

Lemma fold_ok_invariant lines : forall hr,
  Forall (fun he => status (snd he) = SOK <-> messages (snd he) = []) hr ->
  Forall (fun he => status (snd he) = SOK <-> messages (snd he) = [])
         (fold_left (process_line strptime start_time) lines hr).
Proof.
  induction lines as [|raw lines IH]; intros hr Inv; cbn [fold_left]; [exact Inv|].
  apply IH.
  destruct (process_line_cases hr raw) as [->|(s & host & fp & dt & ->)]; [exact Inv|].
  assert (Inv0 : Forall (fun he => status (snd he) = SOK <-> messages (snd he) = [])
                   (match find_entry host hr with
                    | Some _ => hr
                    | None => hr ++ [(host, {| status := SOK; messages := [] |})]
                    end)).
  { destruct (find_entry host hr); [exact Inv|].
    apply Forall_app. split; [exact Inv|]. constructor; [simpl; tauto | constructor]. }
  unfold apply_record.
  destruct (String.eqb s "DRIFT"); [|destruct (String.eqb s "FIXED")]; [| |exact Inv0];
    unfold update_entry; apply List.Forall_map;
    (eapply List.Forall_impl; [|exact Inv0]); intros [k e] He; cbn [fst snd];
    (destruct (String.eqb k host); [|exact He]); cbn [status messages snd];
    (split; [discriminate | intros Hm; apply app_eq_nil in Hm as [_ Hm]; discriminate]).
Qed.

End Lines.

(** The report has one entry per host, and hosts keep the order in which
    their first considered record appeared: reading more lines only adds new
    hosts after the ones already there. *)
Theorem report_hosts_unique_first_seen (strptime : string -> option datetime) start_time lines :
  NoDup (map fst (reduce_lines strptime start_time lines)) /\
  forall l1 l2, exists new,
    map fst (reduce_lines strptime start_time (l1 ++ l2)) =
    map fst (reduce_lines strptime start_time l1) ++ new.
Proof.
  split.
  - apply (fold_keys strptime start_time lines []). constructor.
  - intros l1 l2. unfold reduce_lines. rewrite fold_left_app.
    apply (fold_keys strptime start_time l2). apply (fold_keys strptime start_time l1 []). constructor.
Qed.

(** A host is OK in the report exactly when it has no message: every DRIFT
    or FIXED record adds one, and an OK record never changes an entry. *)
Theorem ok_status_iff_no_messages (strptime : string -> option datetime) start_time lines :
  Forall (fun he => status (snd he) = SOK <-> messages (snd he) = [])
         (reduce_lines strptime start_time lines).
Proof. apply fold_ok_invariant. constructor. Qed.

(** Later lines never remove a host's messages: once a host is in the
    report, reading more lines keeps its messages and may only add new ones
    after them. *)
Theorem messages_only_accumulate (strptime : string -> option datetime) start_time l1 l2 h e :
  find_entry h (reduce_lines strptime start_time l1) = Some e ->
  exists e' extra, find_entry h (reduce_lines strptime start_time (l1 ++ l2)) = Some e' /\
                   messages e' = messages e ++ extra.
Proof.
  unfold reduce_lines. rewrite fold_left_app. apply fold_grows.
Qed.

Lemma messages_only_accumulate_witness :
  exists e' extra,
    find_entry "web1" (reduce_lines strptime_fixed t0 ([drift_line] ++ [fixed_line])) = Some e' /\
    messages e' = ["File: /etc/app.conf (Type: content)"] ++ extra.
Proof.
  apply (messages_only_accumulate strptime_fixed t0 [drift_line] [fixed_line] "web1"
           {| status := SDRIFT; messages := ["File: /etc/app.conf (Type: content)"] |}).
  vm_compute. reflexivity.
Defined.

(** A record changes only the entry of the host it names. *)
Theorem record_touches_only_its_host s host fp dt hr h :
  h <> host -> find_entry h (apply_record s host fp dt hr) = find_entry h hr.
Proof. apply apply_record_ne. Qed.

Lemma record_touches_only_its_host_witness :
  find_entry "web2" (apply_record "DRIFT" "web1" "/etc/app.conf" "content"
                       [("web2", {| status := SFIXED; messages := ["File: /etc/db.conf (FIXED)"] |})]) =
  Some {| status := SFIXED; messages := ["File: /etc/db.conf (FIXED)"] |}.
Proof.
  apply (record_touches_only_its_host "DRIFT" "web1" "/etc/app.conf" "content"
           [("web2", {| status := SFIXED; messages := ["File: /etc/db.conf (FIXED)"] |})] "web2").
  discriminate.
Defined.

Lemma parse_parts_app pre post acc :
  parse_parts (pre ++ post) acc = parse_parts post (parse_parts pre acc).
Proof.
  revert acc. induction pre as [|p pre IH]; intros acc; [reflexivity|].
  cbn [app parse_parts]. destruct acc as [[h f] t]. apply IH.
Qed.

(** When the details of a record hold several ["Host: "] parts, the last
    one names the host. *)
Theorem last_host_part_wins pre p post acc :
  String.prefix "Host: " (PyStr.strip p) = true ->
  (forall q, In q post -> String.prefix "Host: " (PyStr.strip q) = false) ->
  fst (fst (parse_parts (pre ++ p :: post) acc)) = PyStr.replace "Host: " "" (PyStr.strip p).
Proof.
  intros Hp Hpost. rewrite parse_parts_app. cbn [parse_parts].
  destruct (parse_parts pre acc) as [[h f] t]. rewrite Hp.
  rewrite (parse_parts_host post _ Hpost). reflexivity.
Qed.

Lemma last_host_part_wins_witness :
  fst (fst (parse_details "Host: web1 | File: /etc/app.conf | Host: web2")) = "web2".
Proof.
  apply (last_host_part_wins ["Host: web1"; "File: /etc/app.conf"] "Host: web2" []
           ("Unknown", "Unknown", "Unknown") eq_refl).
  intros q [].
Defined.

End HistoryInvariants.

(** ** [perform_safety_checks] and the launch of the playbook *)
Module MainFacts.
Import RunReport Main Samples.
Local Open Scope list_scope.

(** The safety checks let the run go on exactly when the user answered each
    confirmation they ask for with ["yes"] (after [strip]); they ask one
    question for [--auto-fix] without the value ["yes"] and one for
    [--report] without ["yes"] together with [--vault-pass], and read
    nothing else. *)
Theorem safety_checks_proceed_iff_confirmed a answers rest :
  snd (perform_safety_checks a answers) = Proceed rest <->
  prompts_needed a <= length answers /\
  Forall (fun r => PyStr.strip r = "yes") (firstn (prompts_needed a) answers) /\
  rest = skipn (prompts_needed a) answers.
Proof.
  unfold perform_safety_checks, prompts_needed, confirm.
  destruct (truthy (auto_fix a)), (not_yes (auto_fix a)), (truthy (report a)),
           (truthy (vault_pass a)), (not_yes (report a)); cbn [andb negb Nat.add].
  all: destruct answers as [|r1 [|r2 ans]]; cbn [firstn skipn length].
  all: try destruct (String.eqb_spec (PyStr.strip r1) "yes");
       try destruct (String.eqb_spec (PyStr.strip r2) "yes"); cbn [snd app].
  all: split; [intros H; first [discriminate H | injection H as <-] | intros (L & F & ->)].
  all: repeat match goal with H : Forall _ (_ :: _) |- _ => inversion H; subst; clear H end.
  all: try (split; [lia|]; split; [repeat constructor; assumption | reflexivity]).
  all: try reflexivity; try contradiction; try lia.
Qed.

Lemma safety_checks_proceed_iff_confirmed_witness :
  snd (perform_safety_checks
         {| check := false; ask_fix := false; auto_fix := Some "prompt"; report := Some "prompt";
            inventory := "inventory.yml"; vault_pass := Some "__PROMPT__"; verbose := false |}
         ["yes "; " yes"; "extra"]) = Proceed ["extra"].
Proof.
  apply (proj2 (safety_checks_proceed_iff_confirmed
           {| check := false; ask_fix := false; auto_fix := Some "prompt"; report := Some "prompt";
              inventory := "inventory.yml"; vault_pass := Some "__PROMPT__"; verbose := false |}
           ["yes "; " yes"; "extra"] ["extra"])).
  vm_compute. split; [lia|]. split; [repeat constructor | reflexivity].
Defined.

(** When the safety checks stop the run, they either printed the abort line
    last and exit with code 1, or [input()] found no more answers (an
    [EOFError]) while a confirmation was still needed. *)
Theorem safety_checks_stop a answers :
  match snd (perform_safety_checks a answers) with
  | Proceed _ => True
  | Abort c => c = 1%Z /\ exists pre, fst (perform_safety_checks a answers) = pre ++ [SAborted]
  | RaiseEOF => length answers < prompts_needed a
  end.
Proof.
  unfold perform_safety_checks, prompts_needed, confirm.
  destruct (truthy (auto_fix a)), (not_yes (auto_fix a)), (truthy (report a)),
           (truthy (vault_pass a)), (not_yes (report a)); cbn [andb negb Nat.add].
  all: destruct answers as [|r1 [|r2 ans]]; cbn [length].
  all: try destruct (String.eqb (PyStr.strip r1) "yes");
       try destruct (String.eqb (PyStr.strip r2) "yes"); cbn [snd fst app].
  all: first [exact I | lia | split; [reflexivity|]].
  all: match goal with |- exists pre, ?l = pre ++ _ => exists (removelast l); reflexivity end.
Qed.

(** The danger banner is printed exactly when [--auto-fix] is given, and the
    leak warning only when both [--report] and [--vault-pass] are. *)
Theorem safety_checks_warnings a answers :
  (In SDanger (fst (perform_safety_checks a answers)) <-> truthy (auto_fix a) = true) /\
  (In SLeakWarning (fst (perform_safety_checks a answers)) ->
   truthy (report a) = true /\ truthy (vault_pass a) = true).
Proof.
  unfold perform_safety_checks, confirm.
  destruct (truthy (auto_fix a)), (not_yes (auto_fix a)), (truthy (report a)),
           (truthy (vault_pass a)), (not_yes (report a)); cbn [andb negb].
  all: destruct answers as [|r1 [|r2 ans]].
  all: try destruct (String.eqb (PyStr.strip r1) "yes");
       try destruct (String.eqb (PyStr.strip r2) "yes"); cbn [snd fst app In].
  all: intuition discriminate.
Qed.

Lemma safety_checks_warnings_witness :
  In SDanger (fst (perform_safety_checks
    {| check := false; ask_fix := false; auto_fix := Some "yes"; report := None;
       inventory := "inventory.yml"; vault_pass := None; verbose := false |} [])).
Proof.
  apply (proj2 (proj1 (safety_checks_warnings
    {| check := false; ask_fix := false; auto_fix := Some "yes"; report := None;
       inventory := "inventory.yml"; vault_pass := None; verbose := false |} []))).
  reflexivity.
Defined.

(** [--auto-fix] wins over [--ask-fix]: the playbook gets [auto_fix=true]
    when auto-fix is on and [ask_fix=true] only when it is off;
    [generate_report=true] follows [--report]; and the command gets the
    [-e] pair only when one of these variables is set. *)
Theorem fix_mode_passed_to_playbook a :
  (In "auto_fix=true" (extra_vars a) <-> truthy (auto_fix a) = true) /\
  (In "ask_fix=true" (extra_vars a) <-> ask_fix a = true /\ truthy (auto_fix a) = false) /\
  (In "generate_report=true" (extra_vars a) <-> truthy (report a) = true) /\
  length (build_cmd a) = if truthy (auto_fix a) || ask_fix a || truthy (report a) then 6 else 4.
Proof.
  unfold build_cmd, extra_vars.
  destruct (truthy (auto_fix a)), (ask_fix a), (truthy (report a)); cbn [app In orb length].
  all: intuition discriminate.
Qed.

Lemma fix_mode_passed_to_playbook_witness :
  ~ In "ask_fix=true" (extra_vars
      {| check := false; ask_fix := true; auto_fix := Some "yes"; report := None;
         inventory := "inventory.yml"; vault_pass := None; verbose := false |}).
Proof.
  intros H.
  destruct (proj1 (proj1 (proj2 (fix_mode_passed_to_playbook
      {| check := false; ask_fix := true; auto_fix := Some "yes"; report := None;
         inventory := "inventory.yml"; vault_pass := None; verbose := false |}))) H) as [_ Hf].
  discriminate Hf.
Defined.

Lemma run_env_other environ v k :
  k <> "SENTINEL_VAULT_PASS" -> Vault.run_env environ v !! k = environ !! k.
Proof.
  intros Hk. unfold Vault.run_env.
  destruct v as [[|c s]|]; [reflexivity| |reflexivity].
  now apply lookup_insert_ne.
Qed.

(** The output format follows the mode: the quiet mode asks for the JSON
    callback (and loads callback plugins), the interactive mode without
    [--verbose] for YAML, and [--verbose] keeps the caller's setting. *)
Theorem stdout_callback_by_mode environ a v :
  exec_env environ a v !! "ANSIBLE_STDOUT_CALLBACK" =
    (if interactive_mode a then
       if verbose a then environ !! "ANSIBLE_STDOUT_CALLBACK" else Some "yaml"
     else Some "json") /\
  exec_env environ a v !! "ANSIBLE_LOAD_CALLBACK_PLUGINS" =
    (if interactive_mode a then environ !! "ANSIBLE_LOAD_CALLBACK_PLUGINS" else Some "1").
Proof.
  unfold exec_env.
  destruct (interactive_mode a); [destruct (verbose a); cbn [negb]|].
  - split; apply run_env_other; discriminate.
  - rewrite lookup_insert_ne by discriminate. rewrite lookup_insert_eq.
    split; [reflexivity|].
    rewrite !lookup_insert_ne by discriminate. apply run_env_other; discriminate.
  - rewrite lookup_insert_ne by discriminate. rewrite lookup_insert_eq.
    rewrite lookup_insert_eq. split; reflexivity.
Qed.

(** Apart from the five Ansible display and callback variables, the
    playbook's environment is the caller's environment with the vault
    password added: in particular no mode setting touches
    [SENTINEL_VAULT_PASS]. *)
Theorem env_only_display_settings environ a v k :
  ~ In k ["ANSIBLE_RETRY_FILES_ENABLED"; "ANSIBLE_STDOUT_CALLBACK"; "ANSIBLE_DISPLAY_OK_HOSTS";
          "ANSIBLE_DISPLAY_SKIPPED_HOSTS"; "ANSIBLE_LOAD_CALLBACK_PLUGINS"] ->
  exec_env environ a v !! k = Vault.run_env environ v !! k.
Proof.
  intros Hk. cbn [In] in Hk. unfold exec_env.
  destruct (interactive_mode a); [destruct (verbose a); cbn [negb]|];
    [reflexivity | |]; rewrite !lookup_insert_ne by (intros <-; apply Hk; auto 10); reflexivity.
Qed.

Lemma env_only_display_settings_witness :
  exec_env ∅ {| check := false; ask_fix := false; auto_fix := None; report := None;
                inventory := "inventory.yml"; vault_pass := Some "__PROMPT__"; verbose := false |}
    (Some "s3cret") !! "SENTINEL_VAULT_PASS" = Some "s3cret".
Proof.
  rewrite (env_only_display_settings ∅
    {| check := false; ask_fix := false; auto_fix := None; report := None;
       inventory := "inventory.yml"; vault_pass := Some "__PROMPT__"; verbose := false |}
    (Some "s3cret") "SENTINEL_VAULT_PASS" ltac:(cbn; intuition discriminate)).
  apply lookup_insert_eq.
Defined.

(** In the interactive branch the history summary is printed whether the
    playbook succeeded or not, and [main] then ends with the playbook's own
    return code. *)
Theorem interactive_keeps_exit_code strptime start_time rc stdout stderr log :
  snd (run_interactive strptime start_time (Completed rc stdout stderr) log) =
    (if (rc =? 0)%Z then Done else ExitWith rc) /\
  exists pre, fst (run_interactive strptime start_time (Completed rc stdout stderr) log) =
              pre ++ map MHistory (History.parse_audit_log strptime start_time log).
Proof.
  unfold run_interactive. destruct (rc =? 0)%Z.
  - split; [reflexivity | now exists []].
  - split; [reflexivity | now exists [MAnsibleFailedRc rc]].
Qed.

(** In the quiet branch a failed playbook makes [main] exit with its return
    code, unless the summary raised [KeyError] first. *)
Theorem quiet_failure_exit_code (loads : string -> option payload) rc stdout stderr :
  (rc <> 0)%Z ->
  snd (run_quiet loads (Completed rc stdout stderr)) = ExitWith rc \/
  snd (run_quiet loads (Completed rc stdout stderr)) = Uncaught "KeyError".
Proof.
  intros Hrc. unfold run_quiet, quiet_report.
  apply Z.eqb_neq in Hrc. rewrite Hrc. cbn [negb andb].
  destruct (negb (String.prefix "{" (PyStr.strip stdout))); [now left|].
  destruct (parse_ansible_json loads stdout) as [o [e|]]; cbn [snd]; [now right | now left].
Qed.

Lemma quiet_failure_exit_code_witness :
  snd (run_quiet loads_reject (Completed 2 "fatal: unreachable" "ssh error")) = ExitWith 2 \/
  snd (run_quiet loads_reject (Completed 2 "fatal: unreachable" "ssh error")) = Uncaught "KeyError".
Proof. apply quiet_failure_exit_code. discriminate. Defined.

(** When the stripped stdout starts with ["{"] and a drift or fix task of
    the decoded JSON has a non-skipped result for a host that [stats] does
    not list, the quiet branch ends with an uncaught [KeyError] whatever the
    playbook's return code, so a failed run no longer exits with that code. *)
Theorem key_error_masks_exit_code (loads : string -> option payload) rc stdout stderr data p t :
  String.prefix "{" (PyStr.strip stdout) = true ->
  loads stdout = Some data ->
  In p (default [] (data_plays data)) -> In t (default [] (play_tasks p)) ->
  offending (init_lists (default [] (data_stats data))) t ->
  snd (run_quiet loads (Completed rc stdout stderr)) = Uncaught "KeyError".
Proof.
  intros Pre L Hp Ht Off. unfold run_quiet, quiet_report.
  rewrite Pre. rewrite andb_false_r.
  unfold parse_ansible_json. rewrite L.
  pose proof (RunReportFacts.scan_plays_spec (init_lists (default [] (data_stats data)))
                (default [] (data_plays data)) _ _
                (RunReportFacts.same_keys_refl _) (RunReportFacts.same_keys_refl _)) as S.
  destruct (scan_plays _ _) as [e|[dm fm]]; [reflexivity|].
  exfalso. exact (S p t Hp Ht Off).
Qed.

Lemma key_error_masks_exit_code_witness :
  snd (run_quiet (loads_const payload_missing_host) (Completed 2 "{...}" "")) = Uncaught "KeyError".
Proof.
  apply (key_error_masks_exit_code (loads_const payload_missing_host) 2 "{...}" "" payload_missing_host
           {| play_tasks := Some [drift_task [("web2", shown "Drift detected in /etc/app.conf")]] |}
           (drift_task [("web2", shown "Drift detected in /etc/app.conf")])).
  - reflexivity.
  - reflexivity.
  - now left.
  - now left.
  - split; [reflexivity|]. exists "web2", (shown "Drift detected in /etc/app.conf").
    split; [now left|]. split; reflexivity.
Defined.

(** [cleanup_vault_file] removes the relay script and nothing else, and a
    second call changes nothing. *)
Theorem cleanup_idempotent_and_local p fs :
  cleanup_vault_file p (cleanup_vault_file p fs) = cleanup_vault_file p fs /\
  (p <> "" -> p ∉ cleanup_vault_file p fs) /\
  (forall q, q <> p -> q ∈ cleanup_vault_file p fs <-> q ∈ fs).
Proof.
  unfold cleanup_vault_file.
  destruct (String.eqb_spec p "") as [->|Hne]; cbn [negb andb].
  - split; [reflexivity|]. split; [tauto|]. tauto.
  - destruct (bool_decide_reflect (p ∈ fs)) as [Hin|Hnin]; cbn [andb].
    + rewrite bool_decide_eq_false_2 by set_solver. cbn [andb].
      split; [reflexivity|]. split; [intros _; set_solver|]. intros q Hq. set_solver.
    + rewrite bool_decide_eq_false_2 by exact Hnin. cbn [andb].
      split; [reflexivity|]. split; [intros _; exact Hnin|]. tauto.
Qed.

Lemma cleanup_idempotent_and_local_witness :
  "/tmp/tmpx1.sh" ∉ cleanup_vault_file "/tmp/tmpx1.sh" {["/tmp/tmpx1.sh"; "inventory.yml"]}.
Proof.
  apply (proj1 (proj2 (cleanup_idempotent_and_local "/tmp/tmpx1.sh" {["/tmp/tmpx1.sh"; "inventory.yml"]}))).
  discriminate.
Defined.

(** With a vault password the relay script exists while the playbook runs,
    and the cleanup registered by [setup_vault_password] removes it at
    interpreter exit, leaving the files as they were before the run. *)
Theorem relay_script_removed_at_exit vault_pass_arg prompt_input tmp_path cmd_list w :
  tmp_path <> "" -> tmp_path ∉ files w -> cleanups w = [] ->
  let w' := fold_left apply_effect
              (fst (fst (Vault.setup_vault_password vault_pass_arg prompt_input tmp_path cmd_list))) w in
  (truthy vault_pass_arg = true -> tmp_path ∈ files w') /\ at_exit w' = files w.
Proof.
  intros Hne Hnin Hc. cbv zeta.
  unfold Vault.setup_vault_password.
  destruct vault_pass_arg as [[|c s]|]; cbn [truthy fst fold_left].
  - split; [discriminate|]. unfold at_exit. now rewrite Hc.
  - destruct (String.eqb (String c s) "__PROMPT__"); cbn [fst app fold_left apply_effect files cleanups].
    all: split; [intros _; set_solver|].
    all: unfold at_exit; cbn [files cleanups]; rewrite Hc; cbn [app fold_right].
    all: unfold cleanup_vault_file.
    all: apply String.eqb_neq in Hne; rewrite Hne; cbn [negb andb].
    all: rewrite bool_decide_eq_true_2 by set_solver; set_solver.
  - split; [discriminate|]. unfold at_exit. now rewrite Hc.
Qed.

Lemma relay_script_removed_at_exit_witness :
  at_exit (fold_left apply_effect
    (fst (fst (Vault.setup_vault_password (Some "__PROMPT__") "s3cret" "/tmp/tmpx1.sh" ["ansible-playbook"])))
    {| files := {["inventory.yml"]}; cleanups := [] |}) = {["inventory.yml"]}.
Proof.
  apply (proj2 (relay_script_removed_at_exit (Some "__PROMPT__") "s3cret" "/tmp/tmpx1.sh" ["ansible-playbook"]
           {| files := {["inventory.yml"]}; cleanups := [] |}
           ltac:(discriminate) ltac:(cbn [files]; set_solver) eq_refl)).
Defined.

End MainFacts.
